(** * controlgym: the Burgers environment (src/controlgym/envs/burgers.py)

    A shallow embedding of [BurgersEnv]: its constructor, the two Fourier
    operator builders and the parameter export, together with the
    properties the specification states about them.

    Numbers.  numpy's float64 and complex128 are kept behind a record of
    scalar operations ([arith]); the program is written once over that
    record and read at two instances:
    - [exact]: real numbers, with the discrete Fourier transform given by
      its defining sums.  Algebraic statements are proved here; rounding
      is outside this instance.
    - [binary64]: IEEE-754 double precision, used where a statement
      depends on rounding.
    Dimensions ([n_state], ...) are natural numbers. *)

From Stdlib Require Import Reals Lra Floats.
From stdpp Require Import gmap strings list fin_maps.

(** ** Scalar arithmetic *)

(** The operations of numpy the source uses on float64 scalars, and the two
    one-dimensional real transforms of [numpy.fft].  [None] is a raised
    exception. *)
Record arith := Arith {
  num : Type;
  f_of_Z : Z → num;
  fadd : num → num → num;
  fsub : num → num → num;
  fmul : num → num → num;
  fdiv : num → num → num;
  fopp : num → num;
  np_fft_rfft : list num → option (list (num * num));
  np_fft_irfft : list (num * num) → nat → option (list num)
}.

(** A two-dimensional array: its column count and its rows, each of that
    length. *)
Record matrix (X : Type) := Matrix { ncols : nat; rows : list (list X) }.
Arguments Matrix {X} _ _.
Arguments ncols {X} _.
Arguments rows {X} _.

Definition nrows {X} (M : matrix X) : nat := length (rows M).

Definition column {X} (d : X) (c : nat) (M : matrix X) : list X :=
  map (λ r, nth c r d) (rows M).

(** Element-wise binary operation on one-dimensional arrays with numpy's
    broadcasting: equal lengths, or one side of length one; anything else
    raises. *)
Definition broadcast {X Y Z} (f : X → Y → Z) (a : list X) (b : list Y)
  : option (list Z) :=
  if decide (length a = length b) then Some (zip_with f a b)
  else match a, b with
       | [x], _ => Some (map (f x) b)
       | _, [y] => Some (map (λ x, f x y) a)
       | _, _ => None
       end.

(** [M @ v] for a matrix and a one-dimensional array: the inner dimensions
    must agree.  Each entry is the sum of the products along a row, taken
    here from left to right. *)
Definition dot {X} (add mul : X → X → X) (zero : X) (r v : list X) : X :=
  foldl add zero (zip_with mul r v).

Definition matvec {X} (add mul : X → X → X) (zero : X)
  (M : matrix X) (v : list X) : option (list X) :=
  if decide (ncols M = length v)
  then Some (map (λ r, dot add mul zero r v) (rows M))
  else None.

(** Values stored in a parameter dictionary. *)
Inductive pyval (X : Type) :=
| PyNone
| PyInt (z : Z)
| PyFloat (x : X)
| PyStr (s : string)
| PyArray (a : list X).
Arguments PyNone {X}.
Arguments PyInt {X} _.
Arguments PyFloat {X} _.
Arguments PyStr {X} _.
Arguments PyArray {X} _.

Module Burgers.

Section Generic.
Context (A : arith).

#[local] Abbreviation F := (num A).
(** complex128 as a pair (real part, imaginary part) *)
#[local] Abbreviation c128 := (num A * num A)%type.

Definition f0 : F := f_of_Z A 0.
Definition f1 : F := f_of_Z A 1.
Definition f2 : F := f_of_Z A 2.
Definition f3 : F := f_of_Z A 3.
Definition f10 : F := f_of_Z A 10.
(** the literal [0.5] *)
Definition f0_5 : F := fdiv A f1 f2.

(** *** complex128 arithmetic, as numpy computes it *)
Definition c0 : c128 := (f0, f0).
Definition of_real (x : F) : c128 := (x, f0).
Definition cadd (z w : c128) : c128 := (fadd A z.1 w.1, fadd A z.2 w.2).
Definition csub (z w : c128) : c128 := (fsub A z.1 w.1, fsub A z.2 w.2).
Definition cneg (z : c128) : c128 := (fopp A z.1, fopp A z.2).
Definition cmul (z w : c128) : c128 :=
  (fsub A (fmul A z.1 w.1) (fmul A z.2 w.2),
   fadd A (fmul A z.1 w.2) (fmul A z.2 w.1)).

(** *** the part of a [PDE] object this file reads; [other] holds the
    attributes it does not read *)
Record PDE := mkPDE {
  n_state : nat;
  domain_length : F;
  domain_coordinates : list F;
  domain_wavenumbers : list F;
  target_state : list F;
  other : gmap string (pyval F)
}.

(** *** the environment object after [__init__] *)
Record BurgersEnv := mkBurgersEnv {
  pde : PDE;
  init_state : list F;
  state : list F;
  diffusivity_constant : F;
  control_sup : matrix F;
  C : matrix F;
  C_target_state : list F
}.

(** [_compute_fourier_linear_op]:
    [-self.diffusivity_constant * self.domain_wavenumbers**2].
    Unary minus binds tighter than [*], and [**] tighter than both; numpy
    computes the power 2 of a float array as [x * x]. *)
Definition _compute_fourier_linear_op (self : BurgersEnv) : list F :=
  let fourier_linear_op :=
    map (λ k, fmul A (fopp A (diffusivity_constant self)) (fmul A k k))
        (domain_wavenumbers (pde self)) in
  fourier_linear_op.

(** [int(n * aa_factor)] with [aa_factor = 3 / 2]: the product [n * 1.5]
    is exact in binary64 for every array size, and [int] truncates. *)
Definition aa_grid (n : nat) : nat := (3 * n) `div` 2.

(** [int(n / 2) + 1] *)
Definition n_modes (n : nat) : nat := n `div` 2 + 1.

(** [np.fft.rfft(M, axis=0)]: every column is transformed; a matrix with
    no row has no sample to transform and raises. *)
Definition rfft_axis0 (M : matrix F) : option (matrix c128) :=
  if decide (nrows M = 0) then None
  else
    cols ← mapM (λ c, np_fft_rfft A (column f0 c M)) (seq 0 (ncols M));
    Some (Matrix (ncols M)
            (map (λ k, map (λ col, nth k col c0) cols)
                 (seq 0 (n_modes (nrows M))))).

(** The function returned by [_compute_fourier_nonlinear_op].  The product
    [-0.5j * k * (1 / aa_factor) * rfft(...)[...]] associates to the left;
    a real factor met by a complex one is promoted to complex first. *)
Definition fourier_nonlinear_op (self : BurgersEnv)
  (state_fourier : list c128) (action : list F) : option (list c128) :=
  let aa_factor := fdiv A f3 f2 in
  x ← np_fft_irfft A state_fourier (aa_grid (n_state (pde self)));
  let aa_state := map (fmul A aa_factor) x in
  let t1 := map (λ k, cmul (cneg (f0, f0_5)) (of_real k))
                (domain_wavenumbers (pde self)) in
  let t2 := map (λ z, cmul z (of_real (fdiv A f1 aa_factor))) t1 in
  sq_hat ← np_fft_rfft A (map (λ u, fmul A u u) aa_state);
  t3 ← broadcast cmul t2 (take (n_modes (n_state (pde self))) sq_hat);
  Fc ← rfft_axis0 (control_sup self);
  forcing ← matvec cadd cmul c0 Fc (map of_real action);
  let right_hand_side := broadcast cadd t3 forcing in
  right_hand_side.

Definition _compute_fourier_nonlinear_op (self : BurgersEnv)
  : list c128 → list F → option (list c128) :=
  fourier_nonlinear_op self.

(** The expression of the linearity test:
    [N(s, a1 + a2) - N(s, a1) - (N(s, a2) - N(s, 0))]. *)
Definition linearity_defect (self : BurgersEnv) (s : list c128)
  (a1 a2 : list F) : option (list c128) :=
  a12 ← broadcast (fadd A) a1 a2;
  r12 ← fourier_nonlinear_op self s a12;
  r1 ← fourier_nonlinear_op self s a1;
  r2 ← fourier_nonlinear_op self s a2;
  r0 ← fourier_nonlinear_op self s (replicate (length a1) f0);
  d1 ← broadcast csub r12 r1;
  d2 ← broadcast csub r2 r0;
  broadcast csub d1 d2.

(** The shapes the data model fixes for an instance: at least one grid
    point, one wavenumber per retained mode, a control support matrix of
    [n_state] rows and [n_action] columns. *)
Record well_shaped (self : BurgersEnv) (n_action : nat) : Prop := {
  ws_n_state : 1 ≤ n_state (pde self);
  ws_wavenumbers :
    length (domain_wavenumbers (pde self)) = n_modes (n_state (pde self));
  ws_sup_rows : nrows (control_sup self) = n_state (pde self);
  ws_sup_cols : ncols (control_sup self) = n_action
}.

End Generic.

Arguments well_shaped {A} _ _.
Arguments mkPDE {A} _ _ _ _ _ _.
Arguments n_state {A} _.
Arguments domain_length {A} _.
Arguments domain_coordinates {A} _.
Arguments domain_wavenumbers {A} _.
Arguments target_state {A} _.
Arguments other {A} _.
Arguments mkBurgersEnv {A} _ _ _ _ _ _ _.
Arguments pde {A} _.
Arguments init_state {A} _.
Arguments state {A} _.
Arguments diffusivity_constant {A} _.
Arguments control_sup {A} _.
Arguments C {A} _.
Arguments C_target_state {A} _.

(** ** Construction *)

(** numpy's module-level random generator: its state, [np.random.seed]
    and [np.random.rand], which returns the samples and the next state. *)
Record np_random (A : arith) := NpRandom {
  rng : Type;
  np_random_seed : Z → rng;
  np_random_rand : nat → rng → list (num A) * rng
}.
Arguments rng {A} _.
Arguments np_random_seed {A} _ _.
Arguments np_random_rand {A} _ _ _.

(** The options [BurgersEnv.__init__] forwards verbatim to
    [PDE.__init__]. *)
Record pde_kwargs (A : arith) := mkKwargs {
  kw_n_steps : Z;
  kw_domain_length : num A;
  kw_integration_time : num A;
  kw_sample_time : num A;
  kw_process_noise_cov : num A;
  kw_sensor_noise_cov : num A;
  kw_random_init_state_cov : num A;
  kw_target_state : option (list (num A));
  kw_n_state : nat;
  kw_n_observation : nat;
  kw_n_action : nat;
  kw_control_sup_width : num A;
  kw_Q_weight : num A;
  kw_R_weight : num A;
  kw_action_limit : option (num A);
  kw_observation_limit : option (num A);
  kw_reward_limit : option (num A);
  kw_seed : Z
}.
Arguments kw_n_state {A} _.
Arguments kw_seed {A} _.

(** The arguments of [BurgersEnv.__init__]: the forwarded options and the
    two the class keeps for itself. *)
Record burgers_args (A : arith) := mkArgs {
  kwargs : pde_kwargs A;
  arg_init_state : option (list (num A));
  arg_diffusivity_constant : num A
}.
Arguments kwargs {A} _.
Arguments arg_init_state {A} _.
Arguments arg_diffusivity_constant {A} _.

(** The base class [PDE] (pde.py), as far as this file calls it: its
    constructor, which receives [id] and the forwarded options and may
    touch the random generator, and three methods. *)
Record PDE_class (A : arith) (Rnd : np_random A) := mkPDEClass {
  PDE__init__ : string → pde_kwargs A → rng Rnd → PDE A * rng Rnd;
  _compute_control_sup : PDE A → matrix (num A);
  _compute_C : PDE A → matrix (num A);
  PDE_get_params_asdict : PDE A → gmap string (pyval (num A))
}.
Arguments PDE__init__ {A Rnd} _ _ _ _.
Arguments _compute_control_sup {A Rnd} _ _.
Arguments _compute_C {A Rnd} _ _.
Arguments PDE_get_params_asdict {A Rnd} _ _.

Section Construction.
Context (A : arith) (np_cosh : num A → num A).
Context (Rnd : np_random A) (B : PDE_class A Rnd).

(** The documented default:
    [np.cosh(10 * (self.domain_coordinates - 1 * self.domain_length / 2)) ** (-1)];
    the power [-1] of a float array is its reciprocal. *)
Definition pulse (self : PDE A) : list (num A) :=
  map (λ x, fdiv A (f1 A)
              (np_cosh (fmul A (f10 A)
                 (fsub A x (fdiv A (fmul A (f1 A) (domain_length self)) (f2 A))))))
      (domain_coordinates self).

(** [BurgersEnv.__init__].  The assignments are taken in program order; a
    later binding of the same name is the overwrite of the attribute.
    [None] is the exception of [self.C @ self.target_state] on mismatched
    shapes. *)
Definition __init__ (args : burgers_args A) (g : rng Rnd)
  : option (BurgersEnv A * rng Rnd) :=
  let '(self, g) := PDE__init__ B "burgers" (kwargs args) g in
  let '(init_state, g) :=
    match arg_init_state args with
    | Some init_state => (init_state, g)
    | None =>
        let init_state := pulse self in
        let '(u, g) := np_random_rand Rnd (kw_n_state (kwargs args)) g in
        let init_state := map (λ x, fsub A (fmul A (f2 A) x) (f1 A)) u in
        (init_state, g)
    end in
  let state := init_state in
  let diffusivity_constant := arg_diffusivity_constant args in
  let control_sup := _compute_control_sup B self in
  let C := _compute_C B self in
  C_target_state ← matvec (fadd A) (fmul A) (f0 A) C (target_state self);
  Some (mkBurgersEnv self init_state state diffusivity_constant
          control_sup C C_target_state, g).

(** The observation matrix and the target the base class supplies have
    matching shapes, so that [__init__] does not raise. *)
Definition constructible (args : burgers_args A) (g : rng Rnd) : Prop :=
  let self := (PDE__init__ B "burgers" (kwargs args) g).1 in
  ncols (_compute_C B self) = length (target_state self).

(** The initial state the specification describes, with the generator
    state that goes with it: the supplied vector, or else [2 u - 1] for a
    draw [u] of [n_state] samples taken after the base constructor. *)
Definition resolved_init_state (args : burgers_args A) (g : rng Rnd)
  : list (num A) * rng Rnd :=
  let g_base := (PDE__init__ B "burgers" (kwargs args) g).2 in
  match arg_init_state args with
  | Some v => (v, g_base)
  | None =>
      let draw := np_random_rand Rnd (kw_n_state (kwargs args)) g_base in
      (map (λ x, fsub A (fmul A (f2 A) x) (f1 A)) draw.1, draw.2)
  end.

(** Attribute assignments [env.C = M] and [env.target_state = v] on a
    constructed object: plain attributes, nothing else is touched. *)
Definition set_C (M : matrix (num A)) (self : BurgersEnv A) : BurgersEnv A :=
  mkBurgersEnv (pde self) (init_state self) (state self)
    (diffusivity_constant self) (control_sup self) M (C_target_state self).

Definition set_target_state (v : list (num A)) (self : BurgersEnv A)
  : BurgersEnv A :=
  let p := pde self in
  mkBurgersEnv
    (mkPDE (n_state p) (domain_length p) (domain_coordinates p)
       (domain_wavenumbers p) v (other p))
    (init_state self) (state self) (diffusivity_constant self)
    (control_sup self) (C self) (C_target_state self).

(** The projected-target invariant: the cache is [C @ target_state]. *)
Definition projected_target_ok (self : BurgersEnv A) : Prop :=
  matvec (fadd A) (fmul A) (f0 A) (C self) (target_state (pde self))
  = Some (C_target_state self).

(** [get_params_asdict]: [{**pde_dict, **extra_data}]; on a shared key the
    later dictionary wins, which is the union biased to [extra_data]. *)
Definition get_params_asdict (self : BurgersEnv A)
  : gmap string (pyval (num A)) :=
  let pde_dict := PDE_get_params_asdict B (pde self) in
  let extra_data : gmap string (pyval (num A)) :=
    {[ "diffusivity_constant" := PyFloat (diffusivity_constant self) ]} in
  extra_data ∪ pde_dict.

End Construction.

End Burgers.

(** ** Exact arithmetic *)

Module Exact.

#[local] Open Scope R_scope.

Definition Rsum (l : list R) : R := foldr Rplus 0 l.

(** the angle [2 pi m / n] *)
Definition angle (n m : nat) : R := 2 * PI * INR m / INR n.

(** [np.fft.rfft]: [X_k = sum_j x_j exp(-2 pi i j k / n)] for
    [k = 0 .. n/2]; an empty input raises. *)
Definition rfft (x : list R) : option (list (R * R)) :=
  let n := length x in
  if decide (n = 0%nat) then None
  else Some (map (λ k,
               (Rsum (imap (λ j xj, xj * cos (angle n (j * k))) x),
                Rsum (imap (λ j xj, - (xj * sin (angle n (j * k)))) x)))
             (seq 0 (n `div` 2 + 1))).

(** The spectrum of length [n] that [irfft] inverts: the first
    [n/2 + 1] coefficients are read from the input, padded with zeros,
    the others are their conjugates. *)
Definition hermitian (a : list (R * R)) (n k : nat) : R * R :=
  if decide (k ≤ n `div` 2)%nat then nth k a (0, 0)
  else let z := nth (n - k) a (0, 0) in (z.1, - z.2).

(** [np.fft.irfft(a, n)]: the real part of the inverse transform of
    [hermitian a n], scaled by [1 / n]; [n = 0] raises. *)
Definition irfft (a : list (R * R)) (n : nat) : option (list R) :=
  if decide (n = 0%nat) then None
  else Some (map (λ j,
               / INR n *
               Rsum (map (λ k, let z := hermitian a n k in
                               z.1 * cos (angle n (j * k))
                               - z.2 * sin (angle n (j * k)))
                         (seq 0 n)))
             (seq 0 n)).

Definition exact : arith :=
  Arith R IZR Rplus Rminus Rmult Rdiv Ropp rfft irfft.

(** Complex product and sum, written out. *)
Definition Cmult (z w : R * R) : R * R :=
  (z.1 * w.1 - z.2 * w.2, z.1 * w.2 + z.2 * w.1).
Definition Cplus (z w : R * R) : R * R := (z.1 + w.1, z.2 + w.2).

(** A complex number scaled by a real one. *)
Definition Cscale (c : R) (z : R * R) : R * R := (c * z.1, c * z.2).

(** *** The right-hand side as the specification words it *)

(** (a) the advection term: inverse transform onto the grid of
    [int(3/2 n_state)] points scaled by [3/2]; element-wise square; forward
    transform; the first [n_state/2 + 1] modes; rescale by [1/(3/2)];
    multiply element-wise by [-0.5j * wavenumber]. *)
Definition spec_advection (self : Burgers.BurgersEnv exact)
  (state_fourier : list (R * R)) : option (list (R * R)) :=
  let n := Burgers.n_state (Burgers.pde self) in
  x ← irfft state_fourier ((3 * n) `div` 2);
  let oversampled := map (λ v, 3 / 2 * v) x in
  let squared := map (λ v, v * v) oversampled in
  y ← rfft squared;
  let truncated := take (n `div` 2 + 1) y in
  let rescaled := map (λ z, (1 / (3 / 2) * z.1, 1 / (3 / 2) * z.2)) truncated in
  broadcast (λ k z, Cmult (0, - (1 / 2) * k) z)
    (Burgers.domain_wavenumbers (Burgers.pde self)) rescaled.

(** (b) the control forcing: the transform of the columns of the control
    support matrix, times the action. *)
Definition spec_forcing (self : Burgers.BurgersEnv exact) (action : list R)
  : option (list (R * R)) :=
  Fc ← Burgers.rfft_axis0 exact (Burgers.control_sup self);
  matvec Cplus Cmult (0, 0) Fc (map (λ a, (a, 0)) action).

Definition spec_nonlinear_op (self : Burgers.BurgersEnv exact)
  (state_fourier : list (R * R)) (action : list R) : option (list (R * R)) :=
  adv ← spec_advection self state_fourier;
  forcing ← spec_forcing self action;
  broadcast Cplus adv forcing.

(** A vector plus a matrix applied to the action, row by row: the form the
    right-hand side takes on a well-shaped instance. *)
Definition offset_plus_rows (adv : list (R * R)) (rws : list (list (R * R)))
  (a : list R) : list (R * R) :=
  zip_with (λ ad r,
      Burgers.cadd exact ad
        (dot (Burgers.cadd exact) (Burgers.cmul exact) (Burgers.c0 exact) r
           (map (Burgers.of_real exact) a)))
    adv rws.

(** numpy's contract for [np.random.rand(n)]: [n] samples in [[0, 1)]. *)
Definition rand_contract (Rnd : Burgers.np_random exact) : Prop :=
  ∀ n g, length (Burgers.np_random_rand Rnd n g).1 = n ∧
         Forall (λ u, 0 <= u < 1) (Burgers.np_random_rand Rnd n g).1.

End Exact.

(** ** IEEE-754 double precision *)

Module Binary64.

#[local] Open Scope float_scope.

Definition of_Z (z : Z) : float :=
  match z with
  | Z0 => 0
  | Zpos _ => PrimFloat.of_uint63 (Uint63.of_Z z)
  | Zneg p => - PrimFloat.of_uint63 (Uint63.of_Z (Zpos p))
  end.

(** The transforms on the one-point grid, where numpy copies the sample:
    [rfft([x]) = [x + 0j]] and [irfft(a, 1) = [a[0].real]].  Longer grids
    go through the butterflies of numpy's FFT kernel, which this instance
    does not describe: it gives no result for them. *)
Definition rfft (x : list float) : option (list (float * float)) :=
  match x with
  | [a] => Some [(a, 0)]
  | _ => None
  end.

Definition irfft (a : list (float * float)) (n : nat) : option (list float) :=
  if decide (n = 1%nat) then Some [(nth 0 a (0, 0)).1] else None.

Definition binary64 : arith :=
  Arith float of_Z PrimFloat.add PrimFloat.sub PrimFloat.mul PrimFloat.div
    PrimFloat.opp rfft irfft.

(** An instance on the one-point grid with one actuator of unit support,
    the zero state, and the actions [[0.1]] and [[0.2]]. *)
Definition one_point_env : Burgers.BurgersEnv binary64 :=
  Burgers.mkBurgersEnv (A := binary64)
    (Burgers.mkPDE (A := binary64) 1 1 [0] [0] [0] ∅)
    [0] [0] 0x1.0624dd2f1a9fcp-10
    (Matrix 1 [[1]]) (Matrix 1 [[1]]) [0].

Definition a_0_1 : float := 0x1.999999999999ap-4.
Definition a_0_2 : float := 0x1.999999999999ap-3.

End Binary64.

(** ** Concrete data used to exercise the statements *)

Module Demo.

Import Burgers Exact.
#[local] Open Scope R_scope.

(** A generator whose state is a counter; sample [i] of a draw from state
    [g] is [((g + i) mod 8) / 8]. *)
Definition demo_rng : np_random exact :=
  NpRandom exact nat Z.to_nat
    (λ n g, (map (λ i, INR ((g + i) `mod` 8) / 8) (seq 0 n), (g + n)%nat)).

(** A base class on the periodic grid: it seeds the generator, defaults
    the target to zero, has one actuator acting on every grid point and
    one sensor summing all grid points. *)
Definition demo_base : PDE_class exact demo_rng :=
  mkPDEClass exact demo_rng
    (λ id kw g,
       let n := kw_n_state kw in
       let L := kw_domain_length exact kw in
       (mkPDE (A := exact) n L
          (map (λ i, L * INR i / INR n) (seq 0 n))
          (map (λ k, 2 * PI * INR k / L) (seq 0 (n `div` 2 + 1)))
          (default (replicate n 0) (kw_target_state exact kw))
          {[ "id" := PyStr id; "n_steps" := PyInt (kw_n_steps exact kw);
             "seed" := PyInt (kw_seed kw) ]},
        Z.to_nat (kw_seed kw)))
    (λ p, Matrix 1 (replicate (n_state p) [1]))
    (λ p, Matrix (n_state p) [replicate (n_state p) 1])
    (λ p, other p).


Definition demo_kwargs : pde_kwargs exact :=
  mkKwargs exact 100 1 (1 / 1000) (1 / 20) 0 (1 / 4) 0 None
    2 1 1 (1 / 10) 1 1 None None None 0.

Definition demo_args (init : option (list R)) : burgers_args exact :=
  mkArgs exact demo_kwargs init (1 / 1000).

(** A two-point instance with one actuator. *)
Definition demo_env : BurgersEnv exact :=
  mkBurgersEnv (A := exact)
    (mkPDE (A := exact) 2 1 [0; 1 / 2] [0; 2 * PI] [0; 0]
       {[ "id" := PyStr "burgers"; "seed" := PyInt 0 ]})
    [1; -1] [1; -1] (1 / 1000)
    (Matrix 1 [[1]; [0]]) (Matrix 2 [[1; 1]]) [0].

(** The same instance with a grid of no point. *)
Definition empty_grid_env : BurgersEnv exact :=
  mkBurgersEnv (A := exact)
    (mkPDE (A := exact) 0 1 [] [0] [] ∅)
    [] [] (1 / 1000) (Matrix 1 []) (Matrix 0 [[]]) [0].

(** The two-point instance with one wavenumber too many. *)
Definition long_wavenumbers_env : BurgersEnv exact :=
  mkBurgersEnv (A := exact)
    (mkPDE (A := exact) 2 1 [0; 1 / 2] [0; 2 * PI; 4 * PI] [0; 0] ∅)
    [1; -1] [1; -1] (1 / 1000)
    (Matrix 1 [[1]; [0]]) (Matrix 2 [[1; 1]]) [0].

(** A base class whose observation matrix has one column more than the
    target has entries. *)
Definition mismatched_base : PDE_class exact demo_rng :=
  mkPDEClass exact demo_rng
    (PDE__init__ demo_base)
    (_compute_control_sup demo_base)
    (λ p, Matrix (S (n_state p)) [replicate (S (n_state p)) 1])
    (PDE_get_params_asdict demo_base).

(** The two-point instance on a base object that already holds an
    attribute named like the extra parameter. *)
Definition clashing_env : BurgersEnv exact :=
  mkBurgersEnv (A := exact)
    (mkPDE (A := exact) 2 1 [0; 1 / 2] [0; 2 * PI] [0; 0]
       {[ "id" := PyStr "burgers"; "diffusivity_constant" := PyFloat 5 ]})
    [1; -1] [1; -1] (1 / 1000)
    (Matrix 1 [[1]; [0]]) (Matrix 2 [[1; 1]]) [0].

End Demo.

(** * Properties *)

Import Burgers Exact.

(** In the exact instance the scalars are the reals. *)
Ltac as_reals := change (num exact) with R in *.

(** Identities between complex numbers over the reals, by components. *)
Ltac complex_ring :=
  repeat match goal with z : (R * R)%type |- _ => destruct z end;
  unfold cadd, csub, cmul, cneg, of_real, c0, f0; simpl;
  f_equal; ring.

Section LinearOperator.
Context (A : arith).

Lemma linear_op_length (self : BurgersEnv A) :
  length (_compute_fourier_linear_op A self)
  = length (domain_wavenumbers (pde self)).
Proof. unfold _compute_fourier_linear_op. by rewrite length_map. Qed.

Lemma linear_op_lookup (self : BurgersEnv A) (i : nat) :
  _compute_fourier_linear_op A self !! i
  = (λ k, fmul A (fopp A (diffusivity_constant self)) (fmul A k k))
      <$> domain_wavenumbers (pde self) !! i.
Proof. unfold _compute_fourier_linear_op. by rewrite list_lookup_fmap. Qed.

End LinearOperator.

(** C4.  The linear operator has the length of the wavenumber array, its
    entry [i] is [- diffusivity_constant * wavenumber[i]^2], and it is a
    function of these two inputs alone. *)
Theorem C4_linear_op_entries (self : BurgersEnv exact) :
  length (_compute_fourier_linear_op exact self)
  = length (domain_wavenumbers (pde self))
  ∧ (∀ i k, domain_wavenumbers (pde self) !! i = Some k →
       _compute_fourier_linear_op exact self !! i
       = Some (- diffusivity_constant self * k ^ 2)%R)
  ∧ (∀ self' : BurgersEnv exact,
       diffusivity_constant self' = diffusivity_constant self →
       domain_wavenumbers (pde self') = domain_wavenumbers (pde self) →
       _compute_fourier_linear_op exact self'
       = _compute_fourier_linear_op exact self).
Proof.
  split; [apply linear_op_length|]. split.
  - intros i k Hk. etrans; [apply (linear_op_lookup exact self i)|].
    as_reals. rewrite Hk. simpl. f_equal. ring.
  - intros self' Hd Hk. unfold _compute_fourier_linear_op.
    by rewrite Hd, Hk.
Qed.

Lemma C4_linear_op_entries_witness :
  _compute_fourier_linear_op exact Demo.demo_env !! 1
  = Some (- (1 / 1000) * (2 * PI) ^ 2)%R.
Proof.
  exact (proj1 (proj2 (C4_linear_op_entries Demo.demo_env))
           1 (2 * PI)%R eq_refl).
Defined.

(** C9.  For a positive diffusivity constant every entry of the linear
    operator, a real array, is non-positive. *)
Theorem C9_linear_op_nonpositive (self : BurgersEnv exact) :
  (0 < diffusivity_constant self)%R →
  Forall (λ x : R, (x <= 0)%R) (_compute_fourier_linear_op exact self).
Proof.
  intros Hd. unfold _compute_fourier_linear_op.
  apply Forall_fmap, Forall_forall. intros k _. simpl.
  nra.
Qed.

Lemma C9_linear_op_nonpositive_witness :
  (0 < diffusivity_constant Demo.demo_env)%R
  ∧ Forall (λ x : R, (x <= 0)%R)
      (_compute_fourier_linear_op exact Demo.demo_env).
Proof.
  assert (H : (0 < diffusivity_constant Demo.demo_env)%R) by (simpl; lra).
  split; [exact H | exact (C9_linear_op_nonpositive Demo.demo_env H)].
Defined.

(** ** Broadcasting *)

Section Broadcast.
Context {X Y Z : Type}.

Lemma broadcast_same_length (f : X → Y → Z) a b :
  length a = length b → broadcast f a b = Some (zip_with f a b).
Proof. intros H. unfold broadcast. by rewrite decide_True. Qed.

Lemma broadcast_ext (f g : X → Y → Z) a b :
  (∀ x y, f x y = g x y) → broadcast f a b = broadcast g a b.
Proof.
  intros Hfg. unfold broadcast. case_decide.
  - f_equal. clear H. revert b.
    induction a as [|x a IH]; intros [|y b]; simpl; try done.
    by rewrite Hfg, IH.
  - assert (Hl : ∀ x l, map (f x) l = map (g x) l)
      by (intros; apply map_ext; intros; apply Hfg).
    assert (Hr : ∀ y l, map (λ x, f x y) l = map (λ x, g x y) l)
      by (intros; apply map_ext; intros; apply Hfg).
    destruct a as [|x [|x' a]], b as [|y [|y' b]]; try done;
      by rewrite ?Hl, ?Hr.
Qed.

Lemma broadcast_fmap_l {X'} (f : X → Y → Z) (h : X' → X) a b :
  broadcast f (map h a) b = broadcast (λ x y, f (h x) y) a b.
Proof.
  unfold broadcast. rewrite length_map. case_decide.
  - f_equal. apply (zip_with_fmap_l f h).
  - destruct a as [|x [|x' a]], b as [|y [|y' b]]; simpl; try done;
      by rewrite ?map_map.
Qed.

Lemma broadcast_fmap_r {Y'} (f : X → Y → Z) (h : Y' → Y) a b :
  broadcast f a (map h b) = broadcast (λ x y, f x (h y)) a b.
Proof.
  unfold broadcast. rewrite length_map. case_decide.
  - f_equal. apply (zip_with_fmap_r f h).
  - destruct a as [|x [|x' a]], b as [|y [|y' b]]; simpl; try done;
      by rewrite ?map_map.
Qed.

End Broadcast.

(** ** The nonlinear operator against its description *)

Lemma advection_factor (k : R) (z : R * R) :
  cmul exact
    (cmul exact (cmul exact (cneg exact (f0 exact, f0_5 exact)) (of_real exact k))
       (of_real exact (fdiv exact (f1 exact) (fdiv exact (f3 exact) (f2 exact)))))
    z
  = Cmult (0, - (1 / 2) * k)%R
      (1 / (3 / 2) * z.1, 1 / (3 / 2) * z.2)%R.
Proof.
  destruct z as [a b]. unfold cmul, cneg, of_real, Cmult, f0_5, f0, f1, f2, f3.
  simpl. f_equal; field.
Qed.

(** The source function and the description agree on every input, also
    where they have no value. *)
Lemma nonlinear_op_eq_spec
  (self : BurgersEnv exact) (state_fourier : list (R * R)) (action : list R) :
  _compute_fourier_nonlinear_op exact self state_fourier action
  = spec_nonlinear_op self state_fourier action.
Proof.
  unfold _compute_fourier_nonlinear_op, fourier_nonlinear_op,
    spec_nonlinear_op, spec_advection, spec_forcing, aa_grid, n_modes.
  cbn [np_fft_irfft np_fft_rfft exact].
  destruct (irfft state_fourier _) as [x|]; [|done]. cbn [mbind option_bind].
  rewrite !map_map.
  match goal with
  | |- rfft ?l ≫= _ = (rfft ?r ≫= _) ≫= _ => change r with l
  end.
  destruct (rfft _) as [y|]; [|done]. cbn [mbind option_bind].
  rewrite broadcast_fmap_l, broadcast_fmap_r.
  erewrite broadcast_ext; [|intros k z; apply advection_factor].
  destruct (broadcast _ _ _) as [adv|]; [|done]. cbn [mbind option_bind].
  destruct (rfft_axis0 exact _) as [Fc|]; [|done]. cbn [mbind option_bind].
  reflexivity.
Qed.

(** ** Shapes *)

Lemma aa_grid_pos n : 1 ≤ n → aa_grid n ≠ 0.
Proof.
  unfold aa_grid. intros H Hc. apply Nat.div_small_iff in Hc; lia.
Qed.

Lemma n_modes_le_aa n : n_modes n ≤ aa_grid n `div` 2 + 1.
Proof.
  unfold n_modes, aa_grid. apply Nat.add_le_mono_r, Nat.Div0.div_le_mono.
  apply Nat.div_le_lower_bound; lia.
Qed.

Lemma irfft_length a n :
  n ≠ 0 → ∃ x, irfft a n = Some x ∧ length x = n.
Proof.
  intros Hn. unfold irfft. rewrite decide_False by done.
  eexists. split; [done|]. by rewrite length_map, length_seq.
Qed.

Lemma rfft_length (x : list R) :
  length x ≠ 0 → ∃ y, rfft x = Some y ∧ length y = length x `div` 2 + 1.
Proof.
  intros Hn. unfold rfft. rewrite decide_False by done.
  eexists. split; [done|]. by rewrite length_map, length_seq.
Qed.

Lemma rfft_axis0_shape (M : matrix R) :
  nrows M ≠ 0 →
  ∃ Fc, rfft_axis0 exact M = Some Fc
        ∧ ncols Fc = ncols M ∧ nrows Fc = n_modes (nrows M).
Proof.
  intros Hn. unfold rfft_axis0. rewrite decide_False by done.
  destruct (mapM _ _) as [cols|] eqn:Hcols.
  - eexists. split; [done|]. split; [done|].
    unfold nrows at 1. simpl. by rewrite length_map, length_seq.
  - exfalso. apply mapM_None_1, Exists_exists in Hcols as (c & _ & Hc).
    destruct (rfft_length (column (f0 exact) c M)) as (y & Hy & _);
      [unfold column; by rewrite length_map|].
    cbn [np_fft_rfft exact] in Hc. rewrite Hy in Hc. discriminate.
Qed.

(** Under the instance's shapes the right-hand side is the element-wise
    sum of a vector that does not depend on the action and of the rows of
    a fixed matrix applied to the action. *)
Lemma nonlinear_op_form (self : BurgersEnv exact) (m : nat) (s : list (R * R)) :
  well_shaped self m →
  ∃ (adv : list (R * R)) (Fc : matrix (R * R)),
    length adv = n_modes (n_state (pde self))
    ∧ nrows Fc = n_modes (n_state (pde self))
    ∧ ∀ a : list R, length a = m →
        fourier_nonlinear_op exact self s a
        = Some (offset_plus_rows adv (rows Fc) a).
Proof.
  intros [Hn Hk Hr Hc]. unfold fourier_nonlinear_op.
  cbn [np_fft_irfft np_fft_rfft exact].
  destruct (irfft_length s (aa_grid (n_state (pde self))))
    as (x & -> & Hx); [by apply aa_grid_pos|].
  cbn [mbind option_bind].
  match goal with
  | |- context [rfft ?l] =>
      destruct (rfft_length l) as (y & -> & Hy);
        [as_reals; rewrite !length_map, Hx; by apply aa_grid_pos|]
  end.
  as_reals. rewrite !length_map, Hx in Hy.
  cbn [mbind option_bind].
  rewrite broadcast_same_length; last first.
  { rewrite !length_map, length_take, Hy, Hk.
    pose proof (n_modes_le_aa (n_state (pde self))). lia. }
  cbn [mbind option_bind].
  destruct (rfft_axis0_shape (control_sup self)) as (Fc & -> & HFc & HFr);
    [rewrite Hr; lia|].
  cbn [mbind option_bind].
  as_reals.
  eexists _, Fc. split; [|split; [by rewrite HFr, Hr|]].
  2:{ intros a Ha. unfold matvec. as_reals.
      rewrite decide_True by (by rewrite length_map, HFc, Hc, Ha).
      cbn [mbind option_bind].
      rewrite broadcast_same_length; last first.
      { rewrite length_map, length_zip_with, !length_map, length_take, Hy, Hk.
        fold (nrows Fc). rewrite HFr, Hr.
        pose proof (n_modes_le_aa (n_state (pde self))). lia. }
      f_equal. apply (zip_with_fmap_r (cadd exact)). }
  rewrite length_zip_with, !length_map, length_take, Hy, Hk.
  pose proof (n_modes_le_aa (n_state (pde self))). lia.
Qed.

Lemma spec_advection_shape (self : BurgersEnv exact) (m : nat)
  (s : list (R * R)) :
  well_shaped self m →
  ∃ adv, spec_advection self s = Some adv
         ∧ length adv = n_modes (n_state (pde self)).
Proof.
  intros [Hn Hk Hr Hc]. unfold spec_advection.
  destruct (irfft_length s ((3 * n_state (pde self)) `div` 2))
    as (x & -> & Hx); [by apply aa_grid_pos|].
  cbn [mbind option_bind].
  match goal with
  | |- context [rfft ?l] =>
      destruct (rfft_length l) as (y & -> & Hy);
        [rewrite !length_map, Hx; by apply aa_grid_pos|]
  end.
  rewrite !length_map, Hx in Hy. cbn [mbind option_bind].
  pose proof (n_modes_le_aa (n_state (pde self))) as Hle.
  unfold n_modes, aa_grid in *. as_reals.
  rewrite broadcast_same_length
    by (rewrite length_map, length_take, Hy, Hk; lia).
  eexists. split; [done|].
  rewrite length_zip_with, length_map, length_take, Hy, Hk. lia.
Qed.

Lemma spec_forcing_shape (self : BurgersEnv exact) (m : nat) (a : list R) :
  well_shaped self m → length a = m →
  ∃ forcing, spec_forcing self a = Some forcing
             ∧ length forcing = n_modes (n_state (pde self)).
Proof.
  intros [Hn Hk Hr Hc] Ha. unfold spec_forcing. as_reals.
  destruct (rfft_axis0_shape (control_sup self)) as (Fc & -> & HFc & HFr);
    [rewrite Hr; lia|].
  cbn [mbind option_bind]. unfold matvec. as_reals.
  rewrite decide_True by (by rewrite length_map, HFc, Hc, Ha).
  eexists. split; [done|].
  rewrite length_map. fold (nrows Fc). by rewrite HFr, Hr.
Qed.

(** C1.  The function returned by [_compute_fourier_nonlinear_op] agrees
    on every input with the description: the advection term (inverse
    transform on the grid of [int(3/2 n_state)] points scaled by [3/2],
    square, forward transform, first [n_state/2 + 1] modes, rescaling by
    [1/(3/2)], product with [-0.5j * wavenumber]) plus the control forcing
    (the transform of the columns of the control support matrix times the
    action).  On an instance and an action of the fixed dimensions both
    terms exist and the function returns their element-wise sum. *)
Theorem C1_nonlinear_op_is_advection_plus_forcing
  (self : BurgersEnv exact) (state_fourier : list (R * R)) (action : list R) :
  _compute_fourier_nonlinear_op exact self state_fourier action
  = spec_nonlinear_op self state_fourier action
  ∧ ∀ n_action,
      well_shaped self n_action → length action = n_action →
      ∃ adv forcing,
        spec_advection self state_fourier = Some adv
        ∧ spec_forcing self action = Some forcing
        ∧ _compute_fourier_nonlinear_op exact self state_fourier action
          = Some (zip_with Cplus adv forcing).
Proof.
  split; [apply nonlinear_op_eq_spec|].
  intros m Hws Ha.
  destruct (spec_advection_shape self m state_fourier Hws)
    as (adv & Hadv & Hla).
  destruct (spec_forcing_shape self m action Hws Ha)
    as (forcing & Hforcing & Hlf).
  exists adv, forcing. split; [done|]. split; [done|].
  rewrite nonlinear_op_eq_spec. unfold spec_nonlinear_op.
  rewrite Hadv, Hforcing. cbn [mbind option_bind].
  apply broadcast_same_length. by rewrite Hla, Hlf.
Qed.

(** C10.  On an instance with the shapes of the data model, for an action
    of length [n_action] the right-hand side is returned and has exactly
    [n_state/2 + 1] entries (whatever the length of the spectral state,
    which [irfft] crops or pads). *)
Theorem C10_nonlinear_op_length
  (self : BurgersEnv exact) (n_action : nat)
  (state_fourier : list (R * R)) (action : list R) :
  well_shaped self n_action →
  length action = n_action →
  ∃ right_hand_side,
    _compute_fourier_nonlinear_op exact self state_fourier action
    = Some right_hand_side
    ∧ length right_hand_side = n_state (pde self) `div` 2 + 1.
Proof.
  intros Hws Ha.
  destruct (nonlinear_op_form self n_action state_fourier Hws)
    as (adv & Fc & Hadv & HFc & Hop).
  eexists. split; [by apply Hop|]. unfold offset_plus_rows. as_reals.
  rewrite length_zip_with, Hadv. fold (nrows Fc). rewrite HFc.
  unfold n_modes. lia.
Qed.

Lemma demo_env_well_shaped : well_shaped Demo.demo_env 1.
Proof. split; simpl; [lia|reflexivity..]. Qed.

Lemma C1_nonlinear_op_is_advection_plus_forcing_witness :
  ∃ adv forcing,
    spec_advection Demo.demo_env [(1, 0); (0, 1)]%R = Some adv
    ∧ spec_forcing Demo.demo_env [1%R] = Some forcing
    ∧ _compute_fourier_nonlinear_op exact Demo.demo_env
        [(1, 0); (0, 1)]%R [1%R]
      = Some (zip_with Cplus adv forcing).
Proof.
  exact (proj2 (C1_nonlinear_op_is_advection_plus_forcing Demo.demo_env
                  [(1, 0); (0, 1)]%R [1%R])
           1 demo_env_well_shaped eq_refl).
Defined.

Lemma C10_nonlinear_op_length_witness :
  ∃ right_hand_side,
    _compute_fourier_nonlinear_op exact Demo.demo_env
      [(1, 0); (0, 1)]%R [1%R] = Some right_hand_side
    ∧ length right_hand_side = 2.
Proof.
  exact (C10_nonlinear_op_length Demo.demo_env 1 [(1, 0); (0, 1)]%R [1%R]
           demo_env_well_shaped eq_refl).
Defined.

(** ** Linearity of the control forcing *)

Lemma dot_action_add (r : list (R * R)) (a1 a2 : list R) (acc1 acc2 : R * R) :
  length a1 = length a2 →
  foldl (cadd exact) (cadd exact acc1 acc2)
    (zip_with (cmul exact) r (map (of_real exact) (zip_with Rplus a1 a2)))
  = cadd exact
      (foldl (cadd exact) acc1 (zip_with (cmul exact) r (map (of_real exact) a1)))
      (foldl (cadd exact) acc2 (zip_with (cmul exact) r (map (of_real exact) a2))).
Proof.
  revert a1 a2 acc1 acc2.
  induction r as [|z r IH]; intros [|x1 a1] [|x2 a2] acc1 acc2 Hlen;
    simpl in *; try done.
  rewrite <- IH by lia. f_equal. complex_ring.
Qed.

Lemma dot_action_zero (r : list (R * R)) (m : nat) (acc : R * R) :
  foldl (cadd exact) acc
    (zip_with (cmul exact) r (map (of_real exact) (replicate m (f0 exact))))
  = acc.
Proof.
  revert m acc. induction r as [|z r IH]; intros [|m] acc; simpl; try done.
  rewrite <- (IH m acc) at 2. f_equal. complex_ring.
Qed.

Lemma defect_pointwise (ad : R * R) (r : list (R * R)) (a1 a2 : list R) :
  length a1 = length a2 →
  let L a := dot (cadd exact) (cmul exact) (c0 exact) r (map (of_real exact) a) in
  csub exact
    (csub exact (cadd exact ad (L (zip_with Rplus a1 a2))) (cadd exact ad (L a1)))
    (csub exact (cadd exact ad (L a2))
       (cadd exact ad (L (replicate (length a1) (f0 exact)))))
  = c0 exact.
Proof.
  intros Hlen L. subst L. unfold dot.
  rewrite dot_action_zero.
  replace (c0 exact) with (cadd exact (c0 exact) (c0 exact)) at 1
    by complex_ring.
  rewrite dot_action_add by done.
  generalize (foldl (cadd exact) (c0 exact)
                (zip_with (cmul exact) r (map (of_real exact) a1))).
  generalize (foldl (cadd exact) (c0 exact)
                (zip_with (cmul exact) r (map (of_real exact) a2))).
  intros L2 L1. complex_ring.
Qed.

Lemma defect_rows (adv : list (R * R)) (rws : list (list (R * R)))
  (a1 a2 : list R) :
  length a1 = length a2 → length adv = length rws →
  zip_with (csub exact)
    (zip_with (csub exact)
       (offset_plus_rows adv rws (zip_with Rplus a1 a2))
       (offset_plus_rows adv rws a1))
    (zip_with (csub exact)
       (offset_plus_rows adv rws a2)
       (offset_plus_rows adv rws (replicate (length a1) (f0 exact))))
  = replicate (length adv) (c0 exact).
Proof.
  intros Ha. unfold offset_plus_rows. revert rws.
  induction adv as [|ad adv IH]; intros [|r rws] Hlen; simpl in *; try done.
  f_equal; [by apply defect_pointwise|]. apply IH. lia.
Qed.

(** C5, in exact arithmetic.  On an instance with the shapes of the data
    model and for actions [a1], [a2] of length [n_action],
    [N(s, a1 + a2) - N(s, a1) - (N(s, a2) - N(s, 0))] is the zero vector. *)
Theorem C5_forcing_linear_exact
  (self : BurgersEnv exact) (n_action : nat)
  (s : list (R * R)) (a1 a2 : list R) :
  well_shaped self n_action →
  length a1 = n_action → length a2 = n_action →
  linearity_defect exact self s a1 a2
  = Some (replicate (n_state (pde self) `div` 2 + 1) (0, 0)%R).
Proof.
  intros Hws H1 H2.
  destruct (nonlinear_op_form self n_action s Hws)
    as (adv & Fc & Hadv & HFc & Hop).
  unfold linearity_defect. as_reals.
  rewrite broadcast_same_length by lia. cbn [mbind option_bind].
  rewrite !Hop; try done.
  2:{ rewrite length_zip_with. lia. }
  2:{ by rewrite length_replicate. }
  cbn [mbind option_bind]. as_reals.
  assert (Hrows : length adv = length (rows Fc))
    by (rewrite Hadv; symmetry; exact HFc).
  repeat (rewrite broadcast_same_length
            by (unfold offset_plus_rows; rewrite ?length_zip_with; lia);
          cbn [mbind option_bind]).
  f_equal.
  etrans; [apply (defect_rows adv (rows Fc) a1 a2); [lia|done]|].
  rewrite Hadv. reflexivity.
Qed.

Lemma C5_forcing_linear_exact_witness :
  linearity_defect exact Demo.demo_env [(1, 0); (0, 1)]%R [1%R] [2%R]
  = Some [(0, 0); (0, 0)]%R.
Proof.
  exact (C5_forcing_linear_exact Demo.demo_env 1 [(1, 0); (0, 1)]%R
           [1%R] [2%R] demo_env_well_shaped eq_refl eq_refl).
Defined.

(** C5, in double precision.  On the well-shaped one-point instance with
    the zero state, [a1 = [0.1]] and [a2 = [0.2]], the same expression
    evaluates to [2^-55], which is not zero: [0.1 + 0.2] rounds up. *)
Lemma C5_forcing_linear_fails_binary64 :
  well_shaped Binary64.one_point_env 1
  ∧ linearity_defect Binary64.binary64 Binary64.one_point_env
      [(0, 0)%float] [Binary64.a_0_1] [Binary64.a_0_2]
    = Some [(0x1p-55, 0)%float]
  ∧ PrimFloat.eqb 0x1p-55 0 = false.
Proof.
  split; [split; reflexivity || (simpl; lia)|].
  split; vm_compute; reflexivity.
Qed.

(** ** Construction *)

Section ConstructionFacts.
Context (A : arith) (np_cosh : num A → num A).
Context (Rnd : np_random A) (B : PDE_class A Rnd).

Lemma init_succeeds (args : burgers_args A) (g : rng Rnd) :
  constructible A Rnd B args g →
  ∃ env, __init__ A np_cosh Rnd B args g
         = Some (env, (resolved_init_state A Rnd B args g).2)
    ∧ pde env = (PDE__init__ B "burgers" (kwargs args) g).1
    ∧ init_state env = (resolved_init_state A Rnd B args g).1
    ∧ state env = init_state env
    ∧ diffusivity_constant env = arg_diffusivity_constant args
    ∧ control_sup env = _compute_control_sup B (pde env)
    ∧ C env = _compute_C B (pde env)
    ∧ projected_target_ok A env.
Proof.
  unfold constructible, __init__, resolved_init_state, projected_target_ok.
  destruct (PDE__init__ B "burgers" (kwargs args) g) as [self gb]. simpl.
  intros Hshape. unfold matvec at 1. rewrite decide_True by done.
  destruct (arg_init_state args) as [v|].
  - simpl. eexists. split; [done|]. simpl.
    repeat split. unfold matvec. by rewrite decide_True.
  - destruct (np_random_rand Rnd (kw_n_state (kwargs args)) gb) as [u g'].
    simpl. eexists. split; [done|]. simpl.
    repeat split. unfold matvec. by rewrite decide_True.
Qed.

(** The value bound to the pulse never reaches the object: the function
    used to compute it is irrelevant. *)
Lemma init_ignores_pulse (np_cosh' : num A → num A)
  (args : burgers_args A) (g : rng Rnd) :
  __init__ A np_cosh' Rnd B args g = __init__ A np_cosh Rnd B args g.
Proof.
  unfold __init__.
  destruct (PDE__init__ B "burgers" (kwargs args) g) as [self gb].
  destruct (arg_init_state args) as [v|]; [done|].
  by destruct (np_random_rand Rnd (kw_n_state (kwargs args)) gb) as [u g'].
Qed.

End ConstructionFacts.

(** C7.  Whenever the base class supplies matching shapes, construction
    returns an object whose state is its initial state; a supplied
    [init_state] is that initial state, unchanged, and the generator is
    left as the base constructor left it. *)
Theorem C7_supplied_init_state_verbatim
  (A : arith) (np_cosh : num A → num A) (Rnd : np_random A)
  (B : PDE_class A Rnd) (args : burgers_args A) (g : rng Rnd) :
  constructible A Rnd B args g →
  ∃ env g', __init__ A np_cosh Rnd B args g = Some (env, g')
    ∧ state env = init_state env
    ∧ ∀ v, arg_init_state args = Some v →
        init_state env = v ∧ state env = v
        ∧ g' = (PDE__init__ B "burgers" (kwargs args) g).2.
Proof.
  intros Hc.
  destruct (init_succeeds A np_cosh Rnd B args g Hc)
    as (env & Hinit & _ & Hi & Hs & _).
  exists env, (resolved_init_state A Rnd B args g).2.
  split; [done|]. split; [done|].
  intros v Hv. rewrite Hs, Hi. unfold resolved_init_state. by rewrite Hv.
Qed.

Lemma demo_constructible init g :
  constructible exact Demo.demo_rng Demo.demo_base (Demo.demo_args init) g.
Proof. reflexivity. Qed.

Lemma C7_supplied_init_state_verbatim_witness :
  ∃ env g', __init__ exact cosh Demo.demo_rng Demo.demo_base
              (Demo.demo_args (Some [1; -1]%R)) 5 = Some (env, g')
    ∧ state env = init_state env
    ∧ ∀ v, arg_init_state (Demo.demo_args (Some [1; -1]%R)) = Some v →
        init_state env = v ∧ state env = v
        ∧ g' = (PDE__init__ Demo.demo_base "burgers"
                  (kwargs (Demo.demo_args (Some [1; -1]%R))) 5).2.
Proof.
  exact (C7_supplied_init_state_verbatim exact cosh Demo.demo_rng
           Demo.demo_base (Demo.demo_args (Some [1; -1]%R)) 5
           (demo_constructible _ _)).
Defined.

Lemma affine_sample_range (u : list R) :
  Forall (λ x, 0 <= x < 1)%R u →
  Forall (λ x, -1 <= x <= 1)%R
    (map (λ x, fsub exact (fmul exact (f2 exact) x) (f1 exact)) u).
Proof.
  intros Hu. apply Forall_fmap. eapply Forall_impl; [exact Hu|].
  intros x Hx. unfold f1, f2. simpl. lra.
Qed.

(** C2.  When [init_state] is not supplied, the stored initial state is
    [2 u - 1] for the [n_state] samples [u] that [np.random.rand] returns
    after the base constructor; each entry lies in [[-1, 1]]; and the
    pulse plays no part: whatever function computes it, construction
    returns the same object. *)
Theorem C2_default_init_state_is_random
  (np_cosh : R → R) (Rnd : np_random exact) (B : PDE_class exact Rnd)
  (args : burgers_args exact) (g : rng Rnd) :
  rand_contract Rnd →
  arg_init_state args = None →
  constructible exact Rnd B args g →
  ∃ env g', __init__ exact np_cosh Rnd B args g = Some (env, g')
    ∧ init_state env
      = map (λ u, 2 * u - 1)%R
          (np_random_rand Rnd (kw_n_state (kwargs args))
             (PDE__init__ B "burgers" (kwargs args) g).2).1
    ∧ length (init_state env) = kw_n_state (kwargs args)
    ∧ Forall (λ x, -1 <= x <= 1)%R (init_state env)
    ∧ ∀ np_cosh' : R → R,
        __init__ exact np_cosh' Rnd B args g = Some (env, g').
Proof.
  intros Hrand Hnone Hc.
  destruct (init_succeeds exact np_cosh Rnd B args g Hc)
    as (env & Hinit & _ & Hi & _).
  exists env, (resolved_init_state exact Rnd B args g).2.
  unfold resolved_init_state in Hi. rewrite Hnone in Hi. simpl in Hi.
  destruct (Hrand (kw_n_state (kwargs args))
              (PDE__init__ B "burgers" (kwargs args) g).2) as [Hlen Hrange].
  split; [done|]. split; [by rewrite Hi|]. split; [|split].
  - as_reals. by rewrite Hi, length_map.
  - as_reals. rewrite Hi. by apply affine_sample_range.
  - intros np_cosh'. by rewrite (init_ignores_pulse exact np_cosh).
Qed.


Lemma demo_rng_contract : rand_contract Demo.demo_rng.
Proof.
  intros n g.
  change (np_random_rand Demo.demo_rng n g).1
    with (map (λ i, INR ((g + i) `mod` 8) / 8)%R (seq 0 n)).
  split; [by rewrite length_map, length_seq|].
  apply Forall_fmap, Forall_forall. intros i _. unfold compose.
  pose proof (Nat.mod_upper_bound (g + i) 8 ltac:(lia)) as Hlt.
  apply lt_INR in Hlt.
  pose proof (pos_INR ((g + i) `mod` 8)) as Hpos.
  change (INR 8) with (1 + 1 + 1 + 1 + 1 + 1 + 1 + 1)%R in Hlt.
  revert Hlt Hpos. generalize (INR ((g + i) `mod` 8)). intros x Hlt Hpos.
  lra.
Qed.

Lemma C2_default_init_state_is_random_witness :
  ∃ env g', __init__ exact cosh Demo.demo_rng Demo.demo_base
              (Demo.demo_args None) 5 = Some (env, g')
    ∧ init_state env
      = map (λ u, 2 * u - 1)%R
          (np_random_rand Demo.demo_rng
             (kw_n_state (kwargs (Demo.demo_args None)))
             (PDE__init__ Demo.demo_base "burgers"
                (kwargs (Demo.demo_args None)) 5).2).1
    ∧ length (init_state env) = kw_n_state (kwargs (Demo.demo_args None))
    ∧ Forall (λ x, -1 <= x <= 1)%R (init_state env)
    ∧ ∀ np_cosh' : R → R,
        __init__ exact np_cosh' Demo.demo_rng Demo.demo_base
          (Demo.demo_args None) 5 = Some (env, g').
Proof.
  exact (C2_default_init_state_is_random cosh Demo.demo_rng Demo.demo_base
           (Demo.demo_args None) 5 demo_rng_contract eq_refl
           (demo_constructible _ _)).
Defined.



(** ** The projected target *)

Section ProjectedTarget.
Context (A : arith) (Rnd : np_random A) (B : PDE_class A Rnd).

Lemma set_target_state_cache (v : list (num A)) (env : BurgersEnv A) :
  C_target_state (set_target_state A v env) = C_target_state env
  ∧ C (set_target_state A v env) = C env
  ∧ target_state (pde (set_target_state A v env)) = v.
Proof. done. Qed.

Lemma set_C_cache (M : matrix (num A)) (env : BurgersEnv A) :
  C_target_state (set_C A M env) = C_target_state env
  ∧ C (set_C A M env) = M
  ∧ target_state (pde (set_C A M env)) = target_state (pde env).
Proof. done. Qed.

End ProjectedTarget.

(** C3, as the code has it.  After construction the cache is
    [C @ target_state].  Assigning either attribute afterwards leaves the
    cache as it was, so the equality survives the assignment exactly when
    the new product is the cached one. *)
Theorem C3_projected_target_at_construction
  (A : arith) (np_cosh : num A → num A) (Rnd : np_random A)
  (B : PDE_class A Rnd) (args : burgers_args A) (g : rng Rnd) :
  constructible A Rnd B args g →
  ∃ env g', __init__ A np_cosh Rnd B args g = Some (env, g')
    ∧ projected_target_ok A env
    ∧ (∀ v, C_target_state (set_target_state A v env) = C_target_state env
            ∧ (projected_target_ok A (set_target_state A v env)
               ↔ matvec (fadd A) (fmul A) (f0 A) (C env) v
                 = Some (C_target_state env)))
    ∧ (∀ M, C_target_state (set_C A M env) = C_target_state env
            ∧ (projected_target_ok A (set_C A M env)
               ↔ matvec (fadd A) (fmul A) (f0 A) M (target_state (pde env))
                 = Some (C_target_state env))).
Proof.
  intros Hc.
  destruct (init_succeeds A np_cosh Rnd B args g Hc)
    as (env & Hinit & _ & _ & _ & _ & _ & _ & Hok).
  exists env, (resolved_init_state A Rnd B args g).2.
  split; [done|]. split; [done|]. split.
  - intros v. split; [done|]. unfold projected_target_ok. done.
  - intros M. split; [done|]. unfold projected_target_ok. done.
Qed.

Lemma C3_projected_target_at_construction_witness :
  ∃ env g', __init__ exact cosh Demo.demo_rng Demo.demo_base
              (Demo.demo_args None) 5 = Some (env, g')
    ∧ projected_target_ok exact env
    ∧ (∀ v, C_target_state (set_target_state exact v env) = C_target_state env
            ∧ (projected_target_ok exact (set_target_state exact v env)
               ↔ matvec (fadd exact) (fmul exact) (f0 exact) (C env) v
                 = Some (C_target_state env)))
    ∧ (∀ M, C_target_state (set_C exact M env) = C_target_state env
            ∧ (projected_target_ok exact (set_C exact M env)
               ↔ matvec (fadd exact) (fmul exact) (f0 exact) M
                   (target_state (pde env))
                 = Some (C_target_state env))).
Proof.
  exact (C3_projected_target_at_construction exact cosh Demo.demo_rng
           Demo.demo_base (Demo.demo_args None) 5 (demo_constructible _ _)).
Defined.

(** C3 as stated fails: on the object the demo base class constructs, the
    invariant holds, and assigning the target [[1; 0]] breaks it: the
    product is then [[1]] and the cache still [[0]]. *)
Lemma C3_update_breaks_projected_target :
  ∃ env g', __init__ exact cosh Demo.demo_rng Demo.demo_base
              (Demo.demo_args None) 5 = Some (env, g')
    ∧ projected_target_ok exact env
    ∧ ¬ projected_target_ok exact (set_target_state exact [1; 0]%R env).
Proof.
  destruct (init_succeeds exact cosh Demo.demo_rng Demo.demo_base
              (Demo.demo_args None) 5 (demo_constructible _ _))
    as (env & Hinit & Hpde & _ & _ & _ & _ & HC & Hok).
  exists env, (resolved_init_state exact Demo.demo_rng Demo.demo_base
                 (Demo.demo_args None) 5).2.
  split; [done|]. split; [done|].
  unfold projected_target_ok in *. simpl.
  rewrite HC, Hpde in Hok |- *. simpl in Hok |- *.
  unfold matvec in Hok |- *. simpl in Hok |- *.
  intros Hbad. rewrite <- Hok in Hbad.
  injection Hbad as Hbad. unfold dot in Hbad. simpl in Hbad. lra.
Qed.

(** ** The parameter dictionary *)

Section Params.
Context (A : arith) (Rnd : np_random A) (B : PDE_class A Rnd).

Lemma get_params_asdict_insert (self : BurgersEnv A) :
  get_params_asdict A Rnd B self
  = <["diffusivity_constant" := PyFloat (diffusivity_constant self)]>
      (PDE_get_params_asdict B (pde self)).
Proof. unfold get_params_asdict. by rewrite insert_union_singleton_l. Qed.

Lemma get_params_asdict_own_key (self : BurgersEnv A) :
  get_params_asdict A Rnd B self !! "diffusivity_constant"
  = Some (PyFloat (diffusivity_constant self)).
Proof. rewrite get_params_asdict_insert. apply lookup_insert_eq. Qed.

Lemma get_params_asdict_other_key (self : BurgersEnv A) (k : string) :
  k ≠ "diffusivity_constant" →
  get_params_asdict A Rnd B self !! k
  = PDE_get_params_asdict B (pde self) !! k.
Proof.
  intros Hk. rewrite get_params_asdict_insert. by apply lookup_insert_ne.
Qed.

End Params.

(** C8.  [get_params_asdict] maps ["diffusivity_constant"] to the
    instance's constant and agrees with the base dictionary on every other
    key; its key set is the base key set plus that key.  When the base
    dictionary does not itself hold that key, every base entry is kept and
    exactly one entry is added. *)
Theorem C8_params_dict_extends_base
  (A : arith) (Rnd : np_random A) (B : PDE_class A Rnd) (self : BurgersEnv A) :
  let d := get_params_asdict A Rnd B self in
  let pde_dict := PDE_get_params_asdict B (pde self) in
  d !! "diffusivity_constant" = Some (PyFloat (diffusivity_constant self))
  ∧ (∀ k, k ≠ "diffusivity_constant" → d !! k = pde_dict !! k)
  ∧ dom d = {["diffusivity_constant"]} ∪ dom pde_dict
  ∧ (pde_dict !! "diffusivity_constant" = None →
     pde_dict ⊆ d ∧ size d = S (size pde_dict)).
Proof.
  intros d pde_dict. subst d pde_dict.
  split; [apply get_params_asdict_own_key|].
  split; [intros k Hk; by apply get_params_asdict_other_key|].
  rewrite get_params_asdict_insert. split.
  - apply dom_insert_L.
  - intros Hfresh. split.
    + by apply insert_subseteq.
    + by apply map_size_insert_None.
Qed.

Lemma C8_params_dict_extends_base_witness :
  PDE_get_params_asdict Demo.demo_base (pde Demo.demo_env)
    !! "diffusivity_constant" = None
  ∧ PDE_get_params_asdict Demo.demo_base (pde Demo.demo_env)
    ⊆ get_params_asdict exact Demo.demo_rng Demo.demo_base Demo.demo_env
  ∧ size (get_params_asdict exact Demo.demo_rng Demo.demo_base Demo.demo_env)
    = S (size (PDE_get_params_asdict Demo.demo_base (pde Demo.demo_env))).
Proof.
  assert (Hfresh : PDE_get_params_asdict Demo.demo_base (pde Demo.demo_env)
                     !! "diffusivity_constant" = None)
    by (vm_compute; reflexivity).
  split; [exact Hfresh|].
  exact (proj2 (proj2 (proj2
           (C8_params_dict_extends_base exact Demo.demo_rng Demo.demo_base
              Demo.demo_env))) Hfresh).
Defined.

(** * Further properties of the operators *)

(** ** Exceptions of the nonlinear operator *)

Lemma broadcast_mismatch {X Y Z} (f : X → Y → Z) (a : list X) (b : list Y) :
  length a ≠ length b → length a ≠ 1 → length b ≠ 1 →
  broadcast f a b = None.
Proof.
  intros Hab Ha Hb. unfold broadcast. rewrite decide_False by done.
  destruct a as [|x [|x' a]], b as [|y [|y' b]]; simpl in *; done.
Qed.

(** X1.  On a grid of no point the nonlinear operator raises, whatever the
    state and the action: the oversampled grid is empty and [irfft]
    refuses it. *)
Theorem X1_nonlinear_op_empty_grid_raises
  (self : BurgersEnv exact) (state_fourier : list (R * R)) (action : list R) :
  n_state (pde self) = 0 →
  _compute_fourier_nonlinear_op exact self state_fourier action = None.
Proof.
  intros Hn. unfold _compute_fourier_nonlinear_op, fourier_nonlinear_op.
  rewrite Hn. reflexivity.
Qed.

Lemma X1_nonlinear_op_empty_grid_raises_witness :
  _compute_fourier_nonlinear_op exact Demo.empty_grid_env [(1, 0)%R] [1%R]
  = None.
Proof.
  exact (X1_nonlinear_op_empty_grid_raises Demo.empty_grid_env
           [(1, 0)%R] [1%R] eq_refl).
Defined.

(** X2.  On a well-shaped instance an action whose length is not
    [n_action] makes the operator raise (the product with the transformed
    control support has mismatched inner dimensions); it is neither
    cropped nor broadcast. *)
Theorem X2_nonlinear_op_wrong_action_length_raises
  (self : BurgersEnv exact) (n_action : nat)
  (state_fourier : list (R * R)) (action : list R) :
  well_shaped self n_action →
  length action ≠ n_action →
  _compute_fourier_nonlinear_op exact self state_fourier action = None.
Proof.
  intros Hws Ha. rewrite nonlinear_op_eq_spec. unfold spec_nonlinear_op.
  destruct (spec_advection_shape self n_action state_fourier Hws)
    as (adv & -> & _).
  cbn [mbind option_bind]. unfold spec_forcing.
  destruct Hws as [Hn Hk Hr Hc]. as_reals.
  destruct (rfft_axis0_shape (control_sup self)) as (Fc & -> & HFc & _);
    [rewrite Hr; lia|].
  cbn [mbind option_bind]. unfold matvec. as_reals.
  rewrite decide_False; [done|].
  rewrite length_map, HFc, Hc. congruence.
Qed.

Lemma X2_nonlinear_op_wrong_action_length_raises_witness :
  _compute_fourier_nonlinear_op exact Demo.demo_env
    [(1, 0); (0, 1)]%R [1; 2]%R = None.
Proof.
  exact (X2_nonlinear_op_wrong_action_length_raises Demo.demo_env 1
           [(1, 0); (0, 1)]%R [1; 2]%R demo_env_well_shaped
           ltac:(simpl; lia)).
Defined.

(** X3.  With at least two grid points, a wavenumber array whose length is
    neither [n_state/2 + 1] nor one makes the operator raise; an array of
    length one would be broadcast instead. *)
Theorem X3_nonlinear_op_wrong_wavenumber_length_raises
  (self : BurgersEnv exact) (state_fourier : list (R * R)) (action : list R) :
  2 ≤ n_state (pde self) →
  length (domain_wavenumbers (pde self)) ≠ n_state (pde self) `div` 2 + 1 →
  length (domain_wavenumbers (pde self)) ≠ 1 →
  _compute_fourier_nonlinear_op exact self state_fourier action = None.
Proof.
  intros Hn Hk Hk1.
  unfold _compute_fourier_nonlinear_op, fourier_nonlinear_op.
  cbn [np_fft_irfft np_fft_rfft exact].
  destruct (irfft_length state_fourier (aa_grid (n_state (pde self))))
    as (x & -> & Hx); [apply aa_grid_pos; lia|].
  cbn [mbind option_bind].
  match goal with
  | |- context [rfft ?l] =>
      destruct (rfft_length l) as (y & -> & Hy);
        [as_reals; rewrite !length_map, Hx; apply aa_grid_pos; lia|]
  end.
  as_reals. rewrite !length_map, Hx in Hy. cbn [mbind option_bind].
  pose proof (n_modes_le_aa (n_state (pde self))) as Hle.
  assert (Hq : 1 ≤ n_state (pde self) `div` 2)
    by (apply Nat.div_le_lower_bound; lia).
  rewrite broadcast_mismatch; [done|..];
    rewrite ?length_map, ?length_take, ?Hy; unfold n_modes in *; lia.
Qed.

Lemma X3_nonlinear_op_wrong_wavenumber_length_raises_witness :
  _compute_fourier_nonlinear_op exact Demo.long_wavenumbers_env
    [(1, 0); (0, 1)]%R [1%R] = None.
Proof.
  exact (X3_nonlinear_op_wrong_wavenumber_length_raises
           Demo.long_wavenumbers_env [(1, 0); (0, 1)]%R [1%R]
           ltac:(simpl; lia) ltac:(simpl; lia) ltac:(simpl; lia)).
Defined.

(** ** Advection and control terms *)

Lemma map_const_replicate {X Y} (f : X → Y) (c : Y) (l : list X) :
  (∀ x, f x = c) → map f l = replicate (length l) c.
Proof.
  intros Hf. induction l as [|x l IH]; simpl; [done|]. by rewrite Hf, IH.
Qed.

Lemma zip_with_Cplus_zero (adv : list (R * R)) (n : nat) :
  length adv = n → zip_with Cplus adv (replicate n (0, 0)%R) = adv.
Proof.
  revert n. induction adv as [|[a b] adv IH]; intros [|n] Hn;
    simpl in *; try done.
  rewrite IH by lia. unfold Cplus. simpl. do 2 f_equal; ring.
Qed.

Lemma zip_with_csub_Cplus (adv f : list (R * R)) :
  length adv = length f →
  zip_with (csub exact) (zip_with Cplus adv f) adv = f.
Proof.
  revert f. induction adv as [|[a b] adv IH]; intros [|[u v] f] Hlen;
    simpl in *; try done.
  rewrite IH by lia. unfold csub, Cplus. simpl. do 2 f_equal; ring.
Qed.

(** On a well-shaped instance both terms exist, have one entry per
    retained mode, and the operator returns their element-wise sum. *)
Lemma nonlinear_op_sum (self : BurgersEnv exact) (m : nat)
  (s : list (R * R)) (a : list R) :
  well_shaped self m → length a = m →
  ∃ adv f,
    spec_advection self s = Some adv
    ∧ spec_forcing self a = Some f
    ∧ length adv = n_modes (n_state (pde self))
    ∧ length f = n_modes (n_state (pde self))
    ∧ _compute_fourier_nonlinear_op exact self s a
      = Some (zip_with Cplus adv f).
Proof.
  intros Hws Ha.
  destruct (spec_advection_shape self m s Hws) as (adv & Hadv & Hla).
  destruct (spec_forcing_shape self m a Hws Ha) as (f & Hf & Hlf).
  exists adv, f. repeat (split; [done|]).
  rewrite nonlinear_op_eq_spec. unfold spec_nonlinear_op.
  rewrite Hadv, Hf. cbn [mbind option_bind].
  apply broadcast_same_length. by rewrite Hla, Hlf.
Qed.

Lemma spec_forcing_zero (self : BurgersEnv exact) (m : nat) :
  well_shaped self m →
  spec_forcing self (replicate m 0%R)
  = Some (replicate (n_modes (n_state (pde self))) (0, 0)%R).
Proof.
  intros [Hn Hk Hr Hc]. unfold spec_forcing. as_reals.
  destruct (rfft_axis0_shape (control_sup self)) as (Fc & -> & HFc & HFr);
    [rewrite Hr; lia|].
  cbn [mbind option_bind]. unfold matvec. as_reals.
  rewrite decide_True by (by rewrite length_map, length_replicate, HFc, Hc).
  f_equal. rewrite <- Hr, <- HFr. unfold nrows.
  apply map_const_replicate. intros r.
  exact (dot_action_zero r m (0, 0)%R).
Qed.

(** X4.  On a well-shaped instance the operator applied to the zero
    action is the advection term alone: the control term contributes
    nothing. *)
Theorem X4_zero_action_is_pure_advection
  (self : BurgersEnv exact) (n_action : nat) (state_fourier : list (R * R)) :
  well_shaped self n_action →
  _compute_fourier_nonlinear_op exact self state_fourier
    (replicate n_action 0%R)
  = spec_advection self state_fourier.
Proof.
  intros Hws.
  destruct (nonlinear_op_sum self n_action state_fourier
              (replicate n_action 0%R) Hws (length_replicate _ _))
    as (adv & f & Hadv & Hf & Hla & Hlf & Hop).
  rewrite Hop, Hadv. f_equal.
  rewrite (spec_forcing_zero self n_action Hws) in Hf.
  injection Hf as <-. by apply zip_with_Cplus_zero.
Qed.

Lemma X4_zero_action_is_pure_advection_witness :
  _compute_fourier_nonlinear_op exact Demo.demo_env
    [(1, 0); (0, 1)]%R (replicate 1 0%R)
  = spec_advection Demo.demo_env [(1, 0); (0, 1)]%R.
Proof.
  exact (X4_zero_action_is_pure_advection Demo.demo_env 1
           [(1, 0); (0, 1)]%R demo_env_well_shaped).
Defined.

(** X5.  On a well-shaped instance the action enters the right-hand side
    only through the control term: [N(s, a) - N(s, 0)] is
    [rfft(control_sup, axis=0) @ a], whatever the state [s]. *)
Theorem X5_control_contribution_independent_of_state
  (self : BurgersEnv exact) (n_action : nat)
  (state_fourier : list (R * R)) (action : list R) :
  well_shaped self n_action → length action = n_action →
  ∃ r_a r_0 forcing,
    _compute_fourier_nonlinear_op exact self state_fourier action = Some r_a
    ∧ _compute_fourier_nonlinear_op exact self state_fourier
        (replicate n_action 0%R) = Some r_0
    ∧ spec_forcing self action = Some forcing
    ∧ zip_with (csub exact) r_a r_0 = forcing.
Proof.
  intros Hws Ha.
  destruct (nonlinear_op_sum self n_action state_fourier action Hws Ha)
    as (adv & f & Hadv & Hf & Hla & Hlf & Hop).
  destruct (nonlinear_op_sum self n_action state_fourier
              (replicate n_action 0%R) Hws (length_replicate _ _))
    as (adv0 & f0 & Hadv0 & Hf0 & _ & _ & Hop0).
  rewrite Hadv in Hadv0. injection Hadv0 as <-.
  rewrite (spec_forcing_zero self n_action Hws) in Hf0. injection Hf0 as <-.
  rewrite zip_with_Cplus_zero in Hop0 by done.
  exists (zip_with Cplus adv f), adv, f.
  repeat (split; [done|]). apply zip_with_csub_Cplus. by rewrite Hla, Hlf.
Qed.

Lemma X5_control_contribution_independent_of_state_witness :
  ∃ r_a r_0 forcing,
    _compute_fourier_nonlinear_op exact Demo.demo_env
      [(1, 0); (0, 1)]%R [3%R] = Some r_a
    ∧ _compute_fourier_nonlinear_op exact Demo.demo_env
        [(1, 0); (0, 1)]%R (replicate 1 0%R) = Some r_0
    ∧ spec_forcing Demo.demo_env [3%R] = Some forcing
    ∧ zip_with (csub exact) r_a r_0 = forcing.
Proof.
  exact (X5_control_contribution_independent_of_state Demo.demo_env 1
           [(1, 0); (0, 1)]%R [3%R] demo_env_well_shaped eq_refl).
Defined.

Lemma dot_action_scale (c : R) (r : list (R * R)) (a : list R)
  (acc : R * R) :
  foldl Cplus (Cscale c acc)
    (zip_with Cmult r (map (λ x, (x, 0%R)) (map (Rmult c) a)))
  = Cscale c (foldl Cplus acc (zip_with Cmult r (map (λ x, (x, 0%R)) a))).
Proof.
  revert a acc. induction r as [|[u v] r IH]; intros [|x a] [p q];
    simpl; try done.
  rewrite <- IH. f_equal. unfold Cscale, Cplus, Cmult. simpl.
  f_equal; ring.
Qed.

Lemma spec_forcing_scale (self : BurgersEnv exact) (c : R) (a : list R) :
  spec_forcing self (map (Rmult c) a)
  = map (Cscale c) <$> spec_forcing self a.
Proof.
  unfold spec_forcing.
  destruct (rfft_axis0 exact (control_sup self)) as [Fc|]; [|done].
  cbn [mbind option_bind]. unfold matvec. rewrite !length_map.
  case_decide; [|done]. cbn [fmap option_fmap option_map]. f_equal.
  as_reals. rewrite (map_map _ (Cscale c)). apply map_ext. intros r.
  unfold dot.
  replace (0, 0)%R with (Cscale c (0, 0)%R) at 1
    by (unfold Cscale; simpl; f_equal; ring).
  apply dot_action_scale.
Qed.

(** X6.  On a well-shaped instance the control contribution is
    homogeneous in the action: for every real [c],
    [N(s, c a) - N(s, 0) = c (N(s, a) - N(s, 0))]. *)
Theorem X6_control_contribution_homogeneous
  (self : BurgersEnv exact) (n_action : nat)
  (state_fourier : list (R * R)) (action : list R) (c : R) :
  well_shaped self n_action → length action = n_action →
  ∃ r_ca r_a r_0,
    _compute_fourier_nonlinear_op exact self state_fourier
      (map (Rmult c) action) = Some r_ca
    ∧ _compute_fourier_nonlinear_op exact self state_fourier action
      = Some r_a
    ∧ _compute_fourier_nonlinear_op exact self state_fourier
        (replicate n_action 0%R) = Some r_0
    ∧ zip_with (csub exact) r_ca r_0
      = map (Cscale c) (zip_with (csub exact) r_a r_0).
Proof.
  intros Hws Ha.
  destruct (nonlinear_op_sum self n_action state_fourier action Hws Ha)
    as (adv & f & Hadv & Hf & Hla & Hlf & Hop).
  destruct (nonlinear_op_sum self n_action state_fourier
              (map (Rmult c) action) Hws)
    as (adv' & f' & Hadv' & Hf' & _ & Hlf' & Hop');
    [by rewrite length_map|].
  destruct (nonlinear_op_sum self n_action state_fourier
              (replicate n_action 0%R) Hws (length_replicate _ _))
    as (adv0 & f0 & Hadv0 & Hf0 & _ & _ & Hop0).
  rewrite Hadv in Hadv', Hadv0. injection Hadv' as <-. injection Hadv0 as <-.
  rewrite (spec_forcing_zero self n_action Hws) in Hf0. injection Hf0 as <-.
  rewrite zip_with_Cplus_zero in Hop0 by done.
  rewrite spec_forcing_scale, Hf in Hf'. injection Hf' as <-.
  exists (zip_with Cplus adv (map (Cscale c) f)), (zip_with Cplus adv f), adv.
  repeat (split; [done|]).
  rewrite !zip_with_csub_Cplus; [done|by rewrite Hla, Hlf|].
  by rewrite length_map, Hla, Hlf.
Qed.

Lemma X6_control_contribution_homogeneous_witness :
  ∃ r_ca r_a r_0,
    _compute_fourier_nonlinear_op exact Demo.demo_env
      [(1, 0); (0, 1)]%R (map (Rmult 2) [3%R]) = Some r_ca
    ∧ _compute_fourier_nonlinear_op exact Demo.demo_env
        [(1, 0); (0, 1)]%R [3%R] = Some r_a
    ∧ _compute_fourier_nonlinear_op exact Demo.demo_env
        [(1, 0); (0, 1)]%R (replicate 1 0%R) = Some r_0
    ∧ zip_with (csub exact) r_ca r_0
      = map (Cscale 2) (zip_with (csub exact) r_a r_0).
Proof.
  exact (X6_control_contribution_homogeneous Demo.demo_env 1
           [(1, 0); (0, 1)]%R [3%R] 2 demo_env_well_shaped eq_refl).
Defined.

Lemma broadcast_head {X Y Z} (f : X → Y → Z) (x : X) (a : list X)
  (y : Y) (b : list Y) (r : list Z) :
  broadcast f (x :: a) (y :: b) = Some r → r !! 0 = Some (f x y).
Proof.
  unfold broadcast. case_decide.
  - intros [= <-]. done.
  - destruct a as [|x' a]; [intros [= <-]; done|].
    destruct b as [|y' b]; [intros [= <-]; done|done].
Qed.

(** X7.  On a well-shaped instance whose first wavenumber is zero, the
    mean mode of the right-hand side at zero action is zero: advection
    does not change the mean of the state. *)
Theorem X7_advection_preserves_mean
  (self : BurgersEnv exact) (n_action : nat) (state_fourier : list (R * R)) :
  well_shaped self n_action →
  domain_wavenumbers (pde self) !! 0 = Some 0%R →
  ∃ right_hand_side,
    _compute_fourier_nonlinear_op exact self state_fourier
      (replicate n_action 0%R) = Some right_hand_side
    ∧ right_hand_side !! 0 = Some (0, 0)%R.
Proof.
  intros Hws Hk0.
  destruct (nonlinear_op_sum self n_action state_fourier
              (replicate n_action 0%R) Hws (length_replicate _ _))
    as (adv & f & Hadv & Hf & Hla & Hlf & Hop).
  rewrite (spec_forcing_zero self n_action Hws) in Hf. injection Hf as <-.
  rewrite zip_with_Cplus_zero in Hop by done.
  exists adv. split; [done|].
  revert Hadv. unfold spec_advection.
  destruct (irfft state_fourier _) as [x|]; [|done]. cbn [mbind option_bind].
  destruct (rfft _) as [y|]; [|done]. cbn [mbind option_bind].
  as_reals.
  destruct (domain_wavenumbers (pde self)) as [|k ks]; [done|].
  injection Hk0 as ->.
  destruct (map _ (take _ y)) as [|z zs] eqn:Hz.
  - unfold broadcast. destruct ks; simpl; intros [= <-]; simpl in Hla;
      unfold n_modes in Hla; lia.
  - intros Hb. rewrite (broadcast_head _ _ _ _ _ _ Hb).
    f_equal. destruct z as [p q]. unfold Cmult. simpl. f_equal; ring.
Qed.

Lemma X7_advection_preserves_mean_witness :
  ∃ right_hand_side,
    _compute_fourier_nonlinear_op exact Demo.demo_env
      [(1, 0); (0, 1)]%R (replicate 1 0%R) = Some right_hand_side
    ∧ right_hand_side !! 0 = Some (0, 0)%R.
Proof.
  exact (X7_advection_preserves_mean Demo.demo_env 1 [(1, 0); (0, 1)]%R
           demo_env_well_shaped eq_refl).
Defined.

(** ** The linear operator *)

(** X8.  For a positive diffusivity constant the entry of the linear
    operator at wavenumber [k] vanishes exactly when [k = 0] and is
    negative otherwise: every mode but the mean is damped. *)
Theorem X8_linear_op_damps_all_but_mean
  (self : BurgersEnv exact) (i : nat) (k : R) :
  (0 < diffusivity_constant self)%R →
  domain_wavenumbers (pde self) !! i = Some k →
  ∃ x : R, _compute_fourier_linear_op exact self !! i = Some x
    ∧ (x = 0%R ↔ k = 0%R) ∧ (k ≠ 0%R → (x < 0)%R).
Proof.
  intros Hd Hk.
  exists (- diffusivity_constant self * (k * k))%R. split.
  - etrans; [apply (linear_op_lookup exact self i)|].
    as_reals. by rewrite Hk.
  - assert (Hsq : k ≠ 0%R → (0 < k * k)%R)
      by (intros Hne; destruct (Rdichotomy _ _ Hne); nra).
    assert (Hneg : k ≠ 0%R → (- diffusivity_constant self * (k * k) < 0)%R)
      by (intros Hne; specialize (Hsq Hne); nra).
    split; [split|exact Hneg].
    + intros Hx. destruct (Req_dec k 0) as [|Hne]; [done|].
      specialize (Hneg Hne). lra.
    + intros ->. ring.
Qed.

Lemma X8_linear_op_damps_all_but_mean_witness :
  ∃ x : R, _compute_fourier_linear_op exact Demo.demo_env !! 1 = Some x
    ∧ (x = 0%R ↔ (2 * PI)%R = 0%R) ∧ ((2 * PI)%R ≠ 0%R → (x < 0)%R).
Proof.
  exact (X8_linear_op_damps_all_but_mean Demo.demo_env 1 (2 * PI)%R
           ltac:(simpl; lra) eq_refl).
Defined.

(** ** Construction and export *)

(** X9.  Once the base constructor has returned, [__init__] raises
    exactly when the observation matrix built by the base class does not
    have as many columns as the target state has entries; no value of
    [init_state] makes it fail. *)
Theorem X9_init_raises_iff_shapes_mismatch
  (A : arith) (np_cosh : num A → num A) (Rnd : np_random A)
  (B : PDE_class A Rnd) (args : burgers_args A) (g : rng Rnd) :
  __init__ A np_cosh Rnd B args g = None
  ↔ ¬ constructible A Rnd B args g.
Proof.
  split.
  - intros Hnone Hc.
    destruct (init_succeeds A np_cosh Rnd B args g Hc) as (env & Hinit & _).
    congruence.
  - unfold constructible, __init__.
    destruct (PDE__init__ B "burgers" (kwargs args) g) as [self gb]. simpl.
    intros Hshape.
    destruct (arg_init_state args) as [v|];
      [|destruct (np_random_rand Rnd (kw_n_state (kwargs args)) gb)];
      unfold matvec; by rewrite decide_False.
Qed.

Lemma X9_init_raises_iff_shapes_mismatch_witness :
  __init__ exact cosh Demo.demo_rng Demo.mismatched_base
    (Demo.demo_args None) 5 = None.
Proof.
  exact (proj2 (X9_init_raises_iff_shapes_mismatch exact cosh Demo.demo_rng
                  Demo.mismatched_base (Demo.demo_args None) 5)
           ltac:(unfold constructible; simpl; lia)).
Defined.

Lemma dot_zero_vector (r : list R) (n : nat) (acc : R) :
  foldl Rplus acc (zip_with Rmult r (replicate n 0%R)) = acc.
Proof.
  revert n acc. induction r as [|x r IH]; intros [|n] acc; simpl; try done.
  rewrite <- (IH n acc) at 2. f_equal. ring.
Qed.

(** X10.  When the base class supplies the zero target (its default) of
    the length the observation matrix expects, construction succeeds and
    the cached projected target is the zero vector with one entry per row
    of the observation matrix. *)
Theorem X10_zero_target_gives_zero_projection
  (np_cosh : R → R) (Rnd : np_random exact) (B : PDE_class exact Rnd)
  (args : burgers_args exact) (g : rng Rnd) :
  let self := (PDE__init__ B "burgers" (kwargs args) g).1 in
  target_state self = replicate (ncols (_compute_C B self)) 0%R →
  ∃ env g', __init__ exact np_cosh Rnd B args g = Some (env, g')
    ∧ C_target_state env = replicate (nrows (C env)) 0%R.
Proof.
  intros self Htarget.
  assert (Hc : constructible exact Rnd B args g).
  { unfold constructible. fold self. as_reals.
    by rewrite Htarget, length_replicate. }
  destruct (init_succeeds exact np_cosh Rnd B args g Hc)
    as (env & Hinit & Hpde & _ & _ & _ & _ & HC & Hok).
  exists env, (resolved_init_state exact Rnd B args g).2.
  split; [done|].
  unfold projected_target_ok, matvec in Hok. fold self in Hpde.
  rewrite Hpde, Htarget in Hok. case_decide; [|done].
  injection Hok as <-. unfold nrows.
  apply map_const_replicate. intros r. apply dot_zero_vector.
Qed.

Lemma X10_zero_target_gives_zero_projection_witness :
  ∃ env g', __init__ exact cosh Demo.demo_rng Demo.demo_base
              (Demo.demo_args None) 5 = Some (env, g')
    ∧ C_target_state env = replicate (nrows (C env)) 0%R.
Proof.
  exact (X10_zero_target_gives_zero_projection cosh Demo.demo_rng
           Demo.demo_base (Demo.demo_args None) 5 eq_refl).
Defined.

(** X11.  Export after construction gives back the constructor's
    argument: whenever the shapes let construction succeed, the exported
    dictionary of the constructed object maps ["diffusivity_constant"] to
    the [diffusivity_constant] passed to [__init__], whatever the base
    class puts under that key. *)
Theorem X11_export_returns_constructor_argument
  (A : arith) (np_cosh : num A → num A) (Rnd : np_random A)
  (B : PDE_class A Rnd) (args : burgers_args A) (g : rng Rnd) :
  constructible A Rnd B args g →
  ∃ env g', __init__ A np_cosh Rnd B args g = Some (env, g')
    ∧ get_params_asdict A Rnd B env !! "diffusivity_constant"
      = Some (PyFloat (arg_diffusivity_constant args)).
Proof.
  intros Hc.
  destruct (init_succeeds A np_cosh Rnd B args g Hc)
    as (env & Hinit & _ & _ & _ & Hd & _).
  exists env, (resolved_init_state A Rnd B args g).2. split; [done|].
  by rewrite get_params_asdict_own_key, Hd.
Qed.

Lemma X11_export_returns_constructor_argument_witness :
  ∃ env g', __init__ exact cosh Demo.demo_rng Demo.demo_base
              (Demo.demo_args None) 5 = Some (env, g')
    ∧ get_params_asdict exact Demo.demo_rng Demo.demo_base env
        !! "diffusivity_constant"
      = Some (PyFloat (arg_diffusivity_constant (Demo.demo_args None))).
Proof.
  exact (X11_export_returns_constructor_argument exact cosh Demo.demo_rng
           Demo.demo_base (Demo.demo_args None) 5 (demo_constructible _ _)).
Defined.

(** X12.  When the base dictionary already holds the key
    ["diffusivity_constant"], the export replaces its value by the
    instance's constant and adds no entry: the size and the key set are
    those of the base dictionary. *)
Theorem X12_export_overrides_clashing_key
  (A : arith) (Rnd : np_random A) (B : PDE_class A Rnd) (self : BurgersEnv A)
  (v : pyval (num A)) :
  PDE_get_params_asdict B (pde self) !! "diffusivity_constant" = Some v →
  get_params_asdict A Rnd B self !! "diffusivity_constant"
  = Some (PyFloat (diffusivity_constant self))
  ∧ size (get_params_asdict A Rnd B self)
    = size (PDE_get_params_asdict B (pde self))
  ∧ dom (get_params_asdict A Rnd B self)
    = dom (PDE_get_params_asdict B (pde self)).
Proof.
  intros Hv. split; [apply get_params_asdict_own_key|].
  rewrite get_params_asdict_insert. split.
  - by eapply map_size_insert_Some.
  - rewrite dom_insert_L. apply subseteq_union_1_L, singleton_subseteq_l.
    apply elem_of_dom. eauto.
Qed.

Lemma X12_export_overrides_clashing_key_witness :
  get_params_asdict exact Demo.demo_rng Demo.demo_base Demo.clashing_env
    !! "diffusivity_constant" = Some (PyFloat (1 / 1000)%R)
  ∧ size (get_params_asdict exact Demo.demo_rng Demo.demo_base
            Demo.clashing_env)
    = size (PDE_get_params_asdict Demo.demo_base (pde Demo.clashing_env))
  ∧ dom (get_params_asdict exact Demo.demo_rng Demo.demo_base
           Demo.clashing_env)
    = dom (PDE_get_params_asdict Demo.demo_base (pde Demo.clashing_env)).
Proof.
  exact (X12_export_overrides_clashing_key exact Demo.demo_rng Demo.demo_base
           Demo.clashing_env (PyFloat 5%R) ltac:(vm_compute; reflexivity)).
Defined.

(** ** What the operator reads of the spectral state *)

Lemma angle_0 (n : nat) : angle n 0 = 0%R.
Proof. unfold angle. simpl. unfold Rdiv. ring. Qed.

Lemma hermitian_index_bounds (n k : nat) :
  k < n → ¬ k ≤ n `div` 2 → 1 ≤ n - k ∧ n - k ≤ n `div` 2.
Proof.
  intros Hk Hhalf.
  pose proof (Nat.div_mod_eq n 2) as Hdiv.
  pose proof (Nat.mod_upper_bound n 2 ltac:(lia)) as Hmod.
  lia.
Qed.

Lemma irfft_ext (a b : list (R * R)) (n : nat) :
  (nth 0 a (0, 0)%R).1 = (nth 0 b (0, 0)%R).1 →
  (∀ k, 1 ≤ k ≤ n `div` 2 → nth k a (0, 0)%R = nth k b (0, 0)%R) →
  irfft a n = irfft b n.
Proof.
  intros H0 Hk. unfold irfft. case_decide; [done|].
  f_equal. apply map_ext. intros j. f_equal. f_equal.
  apply map_ext_in. intros k Hin. apply in_seq in Hin.
  unfold hermitian. case_decide as Hhalf.
  - destruct k as [|k].
    + rewrite Nat.mul_0_r, angle_0, sin_0, H0. ring.
    + by rewrite Hk by lia.
  - destruct (hermitian_index_bounds n k) as [Hlo Hhi]; [lia|done|].
    by rewrite Hk by lia.
Qed.

(** X13.  Of the spectral state the operator reads only the real part of
    mode 0 and the modes [1 .. N/2], where [N = int(3/2 n_state)] is the
    oversampled grid; modes the state does not have count as zero.  Two
    states that agree there give the same result (or the same exception):
    extra modes and the imaginary part of the mean mode are ignored. *)
Theorem X13_nonlinear_op_reads_retained_modes_only
  (self : BurgersEnv exact) (s1 s2 : list (R * R)) (action : list R) :
  (nth 0 s1 (0, 0)%R).1 = (nth 0 s2 (0, 0)%R).1 →
  (∀ k, 1 ≤ k ≤ ((3 * n_state (pde self)) `div` 2) `div` 2 →
        nth k s1 (0, 0)%R = nth k s2 (0, 0)%R) →
  _compute_fourier_nonlinear_op exact self s1 action
  = _compute_fourier_nonlinear_op exact self s2 action.
Proof.
  intros H0 Hk.
  unfold _compute_fourier_nonlinear_op, fourier_nonlinear_op.
  cbn [np_fft_irfft exact].
  by rewrite (irfft_ext s1 s2 (aa_grid (n_state (pde self))) H0 Hk).
Qed.

Lemma X13_nonlinear_op_reads_retained_modes_only_witness :
  _compute_fourier_nonlinear_op exact Demo.demo_env
    [(1, 0); (0, 1)]%R [1%R]
  = _compute_fourier_nonlinear_op exact Demo.demo_env
      [(1, 5); (0, 1); (7, 7)]%R [1%R].
Proof.
  refine (X13_nonlinear_op_reads_retained_modes_only Demo.demo_env
            [(1, 0); (0, 1)]%R [(1, 5); (0, 1); (7, 7)]%R [1%R] eq_refl _).
  intros k Hk.
  change (((3 * n_state (pde Demo.demo_env)) `div` 2) `div` 2) with 1 in Hk.
  assert (k = 1) as -> by lia. reflexivity.
Defined.

(** ** The advection term as a function of the state *)

Lemma Rsum_map_scale {X} (c : R) (f : X → R) (l : list X) :
  Rsum (map (λ x, c * f x)%R l) = (c * Rsum (map f l))%R.
Proof.
  induction l as [|x l IH]; simpl; [ring|]. rewrite IH. ring.
Qed.

Lemma Rsum_imap_scale {X} (c : R) (f : nat → X → R) (l : list X) :
  Rsum (imap (λ j x, c * f j x)%R l) = (c * Rsum (imap f l))%R.
Proof.
  revert f. induction l as [|x l IH]; intros f; simpl; [ring|].
  change (imap ((λ j x, c * f j x)%R ∘ S) l)
    with (imap (λ j x, c * (f ∘ S) j x)%R l).
  rewrite (IH (f ∘ S)). ring.
Qed.

Lemma nth_map_Cscale (c : R) (a : list (R * R)) (k : nat) :
  nth k (map (Cscale c) a) (0, 0)%R = Cscale c (nth k a (0, 0)%R).
Proof.
  revert k. induction a as [|z a IH]; intros [|k]; simpl; try done;
    unfold Cscale; simpl; f_equal; ring.
Qed.

Lemma irfft_scale (c : R) (a : list (R * R)) (n : nat) :
  irfft (map (Cscale c) a) n = map (Rmult c) <$> irfft a n.
Proof.
  unfold irfft. case_decide; [done|].
  cbn [fmap option_fmap option_map]. f_equal.
  rewrite map_map. apply map_ext. intros j.
  rewrite <- Rmult_assoc, (Rmult_comm c), Rmult_assoc. f_equal.
  rewrite <- Rsum_map_scale. f_equal. apply map_ext. intros k.
  unfold hermitian. case_decide; rewrite nth_map_Cscale;
    unfold Cscale; simpl; ring.
Qed.

Lemma rfft_scale (c : R) (x : list R) :
  rfft (map (Rmult c) x) = map (Cscale c) <$> rfft x.
Proof.
  unfold rfft. rewrite length_map. case_decide; [done|].
  cbn [fmap option_fmap option_map]. f_equal.
  rewrite map_map. apply map_ext. intros k. unfold Cscale. simpl.
  rewrite <- !Rsum_imap_scale. rewrite !imap_fmap.
  f_equal; f_equal; apply imap_ext; intros j xj _; simpl; ring.
Qed.

Lemma broadcast_fmap_result {X Y Z Z'} (g : Z → Z') (f : X → Y → Z)
  (a : list X) (b : list Y) :
  broadcast (λ x y, g (f x y)) a b = map g <$> broadcast f a b.
Proof.
  unfold broadcast. case_decide.
  - cbn [fmap option_fmap option_map]. f_equal.
    clear H. revert b. induction a as [|x a IH]; intros [|y b]; simpl;
      try done. by rewrite IH.
  - destruct a as [|x [|x' a]], b as [|y [|y' b]]; simpl; try done;
      by rewrite ?map_map.
Qed.

Lemma spec_advection_scale (self : BurgersEnv exact) (c : R)
  (s : list (R * R)) :
  spec_advection self (map (Cscale c) s)
  = map (Cscale (c * c)) <$> spec_advection self s.
Proof.
  unfold spec_advection. rewrite irfft_scale.
  destruct (irfft s _) as [x|]; [|done].
  cbn [fmap option_fmap option_map mbind option_bind].
  rewrite !map_map.
  assert (Hsq : map (λ v, 3 / 2 * (c * v) * (3 / 2 * (c * v)))%R x
                = map (Rmult (c * c))
                    (map (λ v, 3 / 2 * v * (3 / 2 * v))%R x)).
  { rewrite map_map. apply map_ext. intros v. ring. }
  rewrite Hsq, rfft_scale.
  destruct (rfft _) as [y|]; [|done].
  cbn [fmap option_fmap option_map mbind option_bind].
  rewrite <- fmap_take, !map_map, broadcast_fmap_r.
  rewrite <- broadcast_fmap_result, broadcast_fmap_r.
  apply broadcast_ext. intros k [p q]. unfold Cscale, Cmult. simpl.
  f_equal; field.
Qed.

(** X14.  The advection term is quadratic in the state: on a well-shaped
    instance, scaling the spectral state by a real [c] scales the
    right-hand side at zero action by [c^2]; in particular a state and its
    negative give the same advection term. *)
Theorem X14_advection_quadratic_in_state
  (self : BurgersEnv exact) (n_action : nat)
  (state_fourier : list (R * R)) (c : R) :
  well_shaped self n_action →
  _compute_fourier_nonlinear_op exact self (map (Cscale c) state_fourier)
    (replicate n_action 0%R)
  = map (Cscale (c * c))
      <$> _compute_fourier_nonlinear_op exact self state_fourier
            (replicate n_action 0%R).
Proof.
  intros Hws.
  destruct (nonlinear_op_sum self n_action state_fourier
              (replicate n_action 0%R) Hws (length_replicate _ _))
    as (adv & f & Hadv & Hf & Hla & Hlf & Hop).
  destruct (nonlinear_op_sum self n_action (map (Cscale c) state_fourier)
              (replicate n_action 0%R) Hws (length_replicate _ _))
    as (adv' & f' & Hadv' & Hf' & Hla' & _ & Hop').
  rewrite (spec_forcing_zero self n_action Hws) in Hf, Hf'.
  injection Hf as <-. injection Hf' as <-.
  rewrite zip_with_Cplus_zero in Hop, Hop' by done.
  rewrite Hop, Hop'. cbn [fmap option_fmap option_map].
  rewrite spec_advection_scale, Hadv in Hadv'.
  by injection Hadv' as <-.
Qed.

Lemma X14_advection_quadratic_in_state_witness :
  _compute_fourier_nonlinear_op exact Demo.demo_env
    (map (Cscale (-1)) [(1, 0); (0, 1)]%R) (replicate 1 0%R)
  = map (Cscale (-1 * -1))
      <$> _compute_fourier_nonlinear_op exact Demo.demo_env
            [(1, 0); (0, 1)]%R (replicate 1 0%R).
Proof.
  exact (X14_advection_quadratic_in_state Demo.demo_env 1
           [(1, 0); (0, 1)]%R (-1) demo_env_well_shaped).
Defined.

Lemma nth_all_zero (s : list (R * R)) (k : nat) :
  Forall (λ z, z = (0, 0)%R) s → nth k s (0, 0)%R = (0, 0)%R.
Proof.
  intros Hs. revert k. induction Hs as [|z s Hz _ IH]; intros [|k]; simpl;
    try done.
Qed.

Lemma spec_advection_zero_state (self : BurgersEnv exact)
  (s : list (R * R)) (adv : list (R * R)) :
  Forall (λ z, z = (0, 0)%R) s →
  spec_advection self s = Some adv →
  Forall (λ z, z = (0, 0)%R) adv.
Proof.
  intros Hs Hadv.
  assert (Hnil : spec_advection self s = spec_advection self []).
  { unfold spec_advection.
    rewrite (irfft_ext s [] _); [done|by rewrite nth_all_zero|].
    intros k _. rewrite nth_all_zero by done. by destruct k. }
  rewrite Hnil in Hadv.
  pose proof (spec_advection_scale self 0 []) as Hscale.
  simpl in Hscale. rewrite Hadv in Hscale.
  injection Hscale as Hscale.
  rewrite Hscale. apply Forall_fmap, Forall_forall. intros [p q] _.
  unfold compose, Cscale. simpl. f_equal; ring.
Qed.

Lemma zip_with_Cplus_zero_l (adv f : list (R * R)) :
  Forall (λ z, z = (0, 0)%R) adv → length adv = length f →
  zip_with Cplus adv f = f.
Proof.
  intros Hadv. revert f.
  induction Hadv as [|z adv -> _ IH]; intros [|[u v] f] Hlen;
    simpl in *; try done.
  rewrite IH by lia. unfold Cplus. simpl. do 2 f_equal; ring.
Qed.

(** X15.  On a well-shaped instance the zero state has no advection: for
    a spectral state whose entries are all zero, of any length, the
    right-hand side is the control term
    [rfft(control_sup, axis=0) @ action] alone. *)
Theorem X15_zero_state_is_pure_forcing
  (self : BurgersEnv exact) (n_action : nat)
  (state_fourier : list (R * R)) (action : list R) :
  well_shaped self n_action → length action = n_action →
  Forall (λ z, z = (0, 0)%R) state_fourier →
  _compute_fourier_nonlinear_op exact self state_fourier action
  = spec_forcing self action.
Proof.
  intros Hws Ha Hs.
  destruct (nonlinear_op_sum self n_action state_fourier action Hws Ha)
    as (adv & f & Hadv & Hf & Hla & Hlf & Hop).
  rewrite Hop, Hf. f_equal.
  apply zip_with_Cplus_zero_l; [|by rewrite Hla, Hlf].
  by apply (spec_advection_zero_state self state_fourier).
Qed.

Lemma X15_zero_state_is_pure_forcing_witness :
  _compute_fourier_nonlinear_op exact Demo.demo_env
    [(0, 0); (0, 0)]%R [3%R]
  = spec_forcing Demo.demo_env [3%R].
Proof.
  exact (X15_zero_state_is_pure_forcing Demo.demo_env 1
           [(0, 0); (0, 0)]%R [3%R] demo_env_well_shaped eq_refl
           ltac:(repeat constructor)).
Defined.

(** X16.  After a successful construction the cached projected target has
    one entry per row of the observation matrix. *)
Theorem X16_projected_target_length
  (A : arith) (np_cosh : num A → num A) (Rnd : np_random A)
  (B : PDE_class A Rnd) (args : burgers_args A) (g : rng Rnd) :
  constructible A Rnd B args g →
  ∃ env g', __init__ A np_cosh Rnd B args g = Some (env, g')
    ∧ length (C_target_state env) = nrows (C env).
Proof.
  intros Hc.
  destruct (init_succeeds A np_cosh Rnd B args g Hc)
    as (env & Hinit & _ & _ & _ & _ & _ & _ & Hok).
  exists env, (resolved_init_state A Rnd B args g).2. split; [done|].
  unfold projected_target_ok, matvec in Hok. case_decide; [|done].
  injection Hok as <-. by rewrite length_map.
Qed.

Lemma X16_projected_target_length_witness :
  ∃ env g', __init__ exact cosh Demo.demo_rng Demo.demo_base
              (Demo.demo_args None) 5 = Some (env, g')
    ∧ length (C_target_state env) = nrows (C env).
Proof.
  exact (X16_projected_target_length exact cosh Demo.demo_rng Demo.demo_base
           (Demo.demo_args None) 5 (demo_constructible _ _)).
Defined.
